(** * Agentic-PRs-Analysis: the Table 1 selector, aggregator and the
      stratified sampler of [script/samples.py] and [script/table1.py].

    A pandas [DataFrame] is a list of rows in row order; a Python [set] of
    integers is a [gset Z]; a Python exception is an [Err] result. *)

From Stdlib Require Import ZArith String Ascii Lia Permutation OrderedTypeEx.
From stdpp Require Import base tactics option list gmap sets strings sorting.

#[global] Set Warnings "-clear-no-such-hyp".

Open Scope string_scope.
Open Scope Z_scope.
Open Scope list_scope.

(** ** Data model (the columns the two scripts load) *)

(** [repository.parquet], columns [id] and [stars]. *)
Record Repository := mkRepository {
  r_id : Z;
  r_stars : Z
}.

(** [pull_request.parquet], the seven columns read by both scripts.
    [merged_at] is a nullable timestamp. *)
Record PullRequest := mkPullRequest {
  p_id : Z;
  p_repo_id : Z;
  p_agent : string;
  p_user : string;
  p_state : string;
  p_merged_at : option string;
  p_html_url : string
}.

(** [pr_comments.parquet], columns [pr_id] and [user_type]; a comment row
    may carry a null [pr_id]. *)
Record Comment := mkComment {
  c_pr_id : option Z;
  c_user_type : string
}.

(** A row of [kept] once the [is_merged] column has been added. *)
Record KeptRow := mkKeptRow {
  k_pr : PullRequest;
  is_merged : bool
}.

(** A row of the grouped table: [agent], [total], [merged], [rejected]. *)
Record TableRow := mkTableRow {
  t_agent : string;
  t_total : Z;
  t_merged : Z;
  t_rejected : Z
}.

#[global] Instance PullRequest_eq_dec : EqDecision PullRequest.
Proof. solve_decision. Defined.

#[global] Instance KeptRow_eq_dec : EqDecision KeptRow.
Proof. solve_decision. Defined.

#[global] Instance TableRow_eq_dec : EqDecision TableRow.
Proof. solve_decision. Defined.

(** Exceptions the scripts can raise on well-typed tables. *)
Inductive Exception :=
  | IntCastingNaNError   (* [.astype(int)] on a column holding a null *)
  | ValueError (msg : string)
  | IndexError (msg : string).

Inductive Result (A : Type) :=
  | Ok (a : A)
  | Err (e : Exception).
Arguments Ok {A} a.
Arguments Err {A} e.

#[global] Instance Result_ret : MRet Result := λ A a, Ok a.

#[global] Instance Result_bind : MBind Result := λ A B k m,
  match m with
  | Ok a => k a
  | Err e => Err e
  end.

(** ** pandas primitives shared by both scripts *)

(** [series.notna()] on one cell. *)
Definition notna {A} (x : option A) : bool :=
  match x with Some _ => true | None => false end.

(** [series.astype(int)]: raises as soon as one cell is null. *)
Fixpoint astype_int (s : list (option Z)) : Result (list Z) :=
  match s with
  | [] => Ok []
  | Some z :: s' => l ← astype_int s'; Ok (z :: l)
  | None :: _ => Err IntCastingNaNError
  end.

(** [series.dropna()]. *)
Fixpoint dropna (s : list (option Z)) : list Z :=
  match s with
  | [] => []
  | Some z :: s' => z :: dropna s'
  | None :: s' => dropna s'
  end.

(** Insertion of a group key into the sorted list of distinct keys:
    [groupby] sorts its group keys and keeps each once. *)
Fixpoint insert_key (a : string) (ks : list string) : list string :=
  match ks with
  | [] => [a]
  | b :: ks' =>
      match String.compare a b with
      | Lt => a :: b :: ks'
      | Eq => b :: ks'
      | Gt => b :: insert_key a ks'
      end
  end.

Definition group_keys (col : list string) : list string :=
  foldr insert_key [] col.

(** [kept.groupby("agent").agg(total=("id","count"),
    merged=("is_merged","sum")).reset_index()] followed by
    [table["rejected"] = table["total"] - table["merged"]]. *)
Definition count_total (a : string) (kept : list KeptRow) : Z :=
  Z.of_nat (length (filter (λ k, p_agent (k_pr k) = a) kept)).

Definition sum_merged (a : string) (kept : list KeptRow) : Z :=
  Z.of_nat (length (filter (λ k, p_agent (k_pr k) = a ∧ is_merged k = true) kept)).

Definition group_row (kept : list KeptRow) (a : string) : TableRow :=
  let total := count_total a kept in
  let merged := sum_merged a kept in
  mkTableRow a total merged (total - merged).

Definition groupby_agent (kept : list KeptRow) : list TableRow :=
  fmap (group_row kept) (group_keys (fmap (λ k, p_agent (k_pr k)) kept)).

(** [int(table["c"].sum())] over a column of the table. *)
Definition column_sum (c : TableRow -> Z) (t : list TableRow) : Z :=
  foldr Z.add 0 (fmap c t).

(** [df.sort_values(key_column)] for a table whose sort keys are given by
    [key]; a missing key (NaN) sorts last. *)
Definition key_leb (x y : option nat) : bool :=
  match x, y with
  | Some i, Some j => Nat.leb i j
  | Some _, None => true
  | None, Some _ => false
  | None, None => true
  end.

Fixpoint insert_row (key : TableRow -> option nat) (r : TableRow)
    (t : list TableRow) : list TableRow :=
  match t with
  | [] => [r]
  | r' :: t' =>
      if key_leb (key r) (key r') then r :: r' :: t'
      else r' :: insert_row key r t'
  end.

Definition sort_values (key : TableRow -> option nat) (t : list TableRow)
    : list TableRow :=
  foldr (insert_row key) [] t.

(** ** The random generator behind [train_test_split]

    [sklearn] and [numpy] are external to the repository.  The generator is
    an interface: a seeded state, [rng.permutation(n)] and sklearn's
    [_approximate_mode(class_counts, n_draws, rng)], whose floating point
    arithmetic is not reproduced; each comes with its contract.  The
    validation and the index bookkeeping of the split are written out
    below. *)
Class NumpyRandom := {
  rng : Type;
  (** [np.random.RandomState(seed)] *)
  RandomState : Z -> rng;
  (** [rng.permutation(n)]: a shuffled [range(n)] and the next state *)
  rng_permutation : rng -> nat -> list nat * rng;
  rng_permutation_perm :
    ∀ g n, (rng_permutation g n).1 ≡ₚ seq 0 n;
  (** [_approximate_mode]: how many rows of each class are drawn *)
  approximate_mode : list nat -> nat -> rng -> list nat * rng;
  approximate_mode_length :
    ∀ cs n g, length (approximate_mode cs n g).1 = length cs;
  approximate_mode_sum :
    ∀ cs n g, (n ≤ sum_list cs)%nat ->
      sum_list (approximate_mode cs n g).1 = n;
  approximate_mode_le :
    ∀ cs n g, (n ≤ sum_list cs)%nat ->
      Forall2 le (approximate_mode cs n g).1 cs;
  (** each class receives its proportional share, up to one row *)
  approximate_mode_close :
    ∀ cs n g i c m, (n ≤ sum_list cs)%nat ->
      cs !! i = Some c -> (approximate_mode cs n g).1 !! i = Some m ->
      (sum_list cs * m ≤ c * n + sum_list cs)%nat ∧
      (c * n ≤ sum_list cs * m + sum_list cs)%nat
}.

Section Sklearn.
Context `{NumpyRandom}.
Context {A : Type}.

(** [check_random_state(seed)]: [None] is numpy's global generator, an
    integer seeds a fresh one. *)
Definition check_random_state (global : rng) (seed : option Z) : rng :=
  match seed with
  | None => global
  | Some s => RandomState s
  end.

(** [_validate_shuffle_split(n_samples, test_size, train_size=None)] for
    an integer [test_size]. *)
Definition validate_shuffle_split (n_samples : nat) (test_size : Z)
    : Result (nat * nat) :=
  if bool_decide (Z.of_nat n_samples ≤ test_size ∨ test_size ≤ 0) then
    Err (ValueError "test_size should be positive and smaller than the number of samples")
  else
    let n_test := Z.to_nat test_size in
    let n_train := (n_samples - n_test)%nat in
    if bool_decide (n_samples < n_train + n_test)%nat then
      Err (ValueError "train_size + test_size exceeds the number of samples")
    else if bool_decide (n_train = 0%nat) then
      Err (ValueError "the resulting train set will be empty")
    else Ok (n_train, n_test).

(** [arr.take(idx, mode="clip")] *)
Definition take_clip (arr idx : list nat) : list nat :=
  fmap (λ j, arr !!! (j `min` (length arr - 1))%nat) idx.

(** [rng.permutation(arr)]: a shuffled copy of [arr]. *)
Definition permute (g : rng) (arr : list nat) : list nat * rng :=
  let '(p, g') := rng_permutation g (length arr) in
  (take_clip arr p, g').

(** The loop [for i in range(n_classes)] of
    [StratifiedShuffleSplit._iter_indices]. *)
Fixpoint split_classes (g : rng) (class_indices : list (list nat))
    (class_counts n_i t_i : list nat) : list nat * list nat * rng :=
  match class_indices, class_counts, n_i, t_i with
  | ci :: cis, c :: cs, n :: ns, t :: ts =>
      let '(permutation, g1) := rng_permutation g c in
      let perm_indices_class_i := take_clip ci permutation in
      let '(train, test, g2) := split_classes g1 cis cs ns ts in
      (take n perm_indices_class_i ++ train,
       take t (drop n perm_indices_class_i) ++ test, g2)
  | _, _, _, _ => ([], [], g)
  end.

(** [StratifiedShuffleSplit(test_size=n_test, train_size=n_train,
    random_state=...).split(X, y)], first split. *)
Definition stratified_shuffle_split (global : rng) (y : list string)
    (n_train n_test : nat) (random_state : option Z)
    : Result (list nat * list nat) :=
  let n_samples := length y in
  let classes := group_keys y in
  let n_classes := length classes in
  let class_counts :=
    fmap (λ c, length (filter (λ v, v = c) y)) classes in
  if bool_decide (Exists (λ c, c < 2)%nat class_counts) then
    Err (ValueError "The least populated class in y has only 1 member")
  else if bool_decide (n_train < n_classes)%nat then
    Err (ValueError "The train_size should be greater or equal to the number of classes")
  else if bool_decide (n_test < n_classes)%nat then
    Err (ValueError "The test_size should be greater or equal to the number of classes")
  else
    let class_indices :=
      fmap (λ c, filter (λ j, y !! j = Some c) (seq 0 n_samples)) classes in
    let g0 := check_random_state global random_state in
    let '(n_i, g1) := approximate_mode class_counts n_train g0 in
    let class_counts_remaining := zip_with Nat.sub class_counts n_i in
    let '(t_i, g2) := approximate_mode class_counts_remaining n_test g1 in
    let '(train, test, g3) :=
      split_classes g2 class_indices class_counts n_i t_i in
    let '(train', g4) := permute g3 train in
    let '(test', _) := permute g4 test in
    Ok (train', test').

(** [df.iloc[idx]] *)
Definition iloc (df : list A) (idx : list nat) : Result (list A) :=
  match mapM (λ i, df !! i) idx with
  | Some rows => Ok rows
  | None => Err (IndexError "positional indexers are out-of-bounds")
  end.

(** [train_test_split(df, test_size=..., stratify=..., random_state=...)] *)
Definition train_test_split (global : rng) (df : list A) (test_size : Z)
    (stratify : list string) (random_state : option Z)
    : Result (list A * list A) :=
  '(n_train, n_test) ← validate_shuffle_split (length df) test_size;
  '(train, test) ←
    stratified_shuffle_split global stratify n_train n_test random_state;
  a ← iloc df train;
  b ← iloc df test;
  Ok (a, b).
End Sklearn.

(** ** [script/table1.py] *)
Module Table1.

Definition MIN_STARS : Z := 500.

Definition AGENTS : list string :=
  ["Claude_Code"; "Copilot"; "Cursor"; "Devin"; "OpenAI_Codex"].

Definition BOT_LIST : list string :=
  [ "copilot-swe-agent[bot]";
    "cursor[bot]";
    "gemini-code-assist[bot]";
    "copilot-pull-request-reviewer[bot]";
    "coderabbitai[bot]";
    "ellipsis-dev[bot]";
    "greptile-apps[bot]";
    "entelligence-ai-pr-reviews[bot]";
    "Copilot";
    "github-advanced-security[bot]" ].

Section Main.
Variables (repos : list Repository) (prs : list PullRequest)
          (comments : list Comment).

(** Step 1: repositories with [stars >= MIN_STARS], closed PRs. *)
Definition repo_ids : gset Z :=
  list_to_set (fmap r_id (filter (λ r, MIN_STARS ≤ r_stars r) repos)).

Definition selected : list PullRequest :=
  filter (λ p, p_repo_id p ∈ repo_ids ∧ p_state p = "closed") prs.

Definition selected_ids : gset Z := list_to_set (fmap p_id selected).

(** Bot-authored PRs with no human (User) comments are excluded. *)
Definition bot_assigned : list PullRequest :=
  filter (λ p, p_user p ∈ BOT_LIST) selected.

Definition user_commented_pr_ids : gset Z :=
  list_to_set
    (remove_dups
       (dropna (fmap c_pr_id (filter (λ c, c_user_type c = "User") comments)))).

Definition excluded : list PullRequest :=
  filter (λ p, p_id p ∉ user_commented_pr_ids) bot_assigned.

Definition excluded_ids : gset Z := list_to_set (fmap p_id excluded).

Definition kept_ids : gset Z := selected_ids ∖ excluded_ids.

Definition kept : list KeptRow :=
  fmap (λ p, mkKeptRow p (notna (p_merged_at p)))
      (filter (λ p, p_id p ∉ excluded_ids) selected).

(** Aggregate by agent. *)
Definition table : list TableRow := groupby_agent kept.

(** [order = {a: i for i, a in enumerate(AGENTS)}]: later entries
    overwrite earlier ones. *)
Definition order : gmap string nat :=
  foldl (λ m ia, <[ia.2 := ia.1]> m) ∅ (zip (seq 0 (length AGENTS)) AGENTS).

(** Keep only known agents in a fixed order. *)
Definition table1 : list TableRow :=
  sort_values (λ r, order !! t_agent r)
              (filter (λ r, t_agent r ∈ AGENTS) table).

Definition total_total : Z := column_sum t_total table1.
Definition total_merged : Z := column_sum t_merged table1.
Definition total_rejected : Z := column_sum t_rejected table1.
End Main.

End Table1.

(** ** [script/samples.py] *)
Module Samples.

Definition MIN_STARS : Z := 500.
Definition RANDOM_STATE : Z := 72.
Definition VALIDATE_AGREEMENT_SAMPLE : Z := 30.

Definition AGENTS : list string :=
  ["Claude_Code"; "Copilot"; "Cursor"; "Devin"; "OpenAI_Codex"].

Definition BOT_LIST : list string :=
  [ "copilot-swe-agent[bot]";
    "cursor[bot]";
    "gemini-code-assist[bot]";
    "copilot-pull-request-reviewer[bot]";
    "coderabbitai[bot]";
    "ellipsis-dev[bot]";
    "greptile-apps[bot]";
    "entelligence-ai-pr-reviews[bot]";
    "Copilot";
    "github-advanced-security[bot]" ].

Section TableLogic.
Variables (repos : list Repository) (prs : list PullRequest)
          (comments : list Comment).

Definition repo_ids : gset Z :=
  list_to_set (fmap r_id (filter (λ r, MIN_STARS ≤ r_stars r) repos)).

Definition selected : list PullRequest :=
  filter (λ p, p_repo_id p ∈ repo_ids ∧ p_state p = "closed") prs.

Definition bot_assigned : list PullRequest :=
  filter (λ p, p_user p ∈ BOT_LIST) selected.

(** No [dropna] here: the cast raises on a null [pr_id]. *)
Definition human_commented_ids : Result (gset Z) :=
  ids ← astype_int
          (fmap c_pr_id (filter (λ c, c_user_type c = "User") comments));
  Ok (list_to_set ids).

Definition excluded_ids (human : gset Z) : gset Z :=
  list_to_set (fmap p_id (filter (λ p, p_id p ∉ human) bot_assigned)).

Definition kept (human : gset Z) : list KeptRow :=
  fmap (λ p, mkKeptRow p (notna (p_merged_at p)))
      (filter (λ p, p_id p ∉ excluded_ids human) selected).

Definition table1 (human : gset Z) : list TableRow :=
  filter (λ r, t_agent r ∈ AGENTS) (groupby_agent (kept human)).

(** Split accept / reject. *)
Definition combined_accepted (human : gset Z) : list KeptRow :=
  filter (λ k, is_merged k = true) (kept human).

Definition combined_rejected (human : gset Z) : list KeptRow :=
  filter (λ k, ¬ is_merged k = true) (kept human).

(** Sample sizes derived from Table 1. *)
Definition ACCEPT_SAMPLE_SIZE (human : gset Z) : Z :=
  column_sum t_merged (table1 human).

Definition REJECT_SAMPLE_SIZE (human : gset Z) : Z :=
  column_sum t_rejected (table1 human).
End TableLogic.

(** [stratified_n_sample(df, n, col)]; the column [col] is given by its
    projection (every caller passes ["agent"]). *)
Definition stratified_n_sample `{NumpyRandom} {A : Type} (global : rng)
    (df : list A) (n : Z) (col : A -> string) : Result (list A * list A) :=
  let n := Z.min n (Z.of_nat (length df)) in
  if bool_decide (n = 0) then Ok ([], df)
  else if bool_decide (n = Z.of_nat (length df)) then Ok (df, [])
  else
    train_test_split global df (Z.of_nat (length df) - n)
                     (fmap col df) (Some RANDOM_STATE).

(** The four worklists written by the script. *)
Record Outputs := mkOutputs {
  sample_check_rejected : list KeptRow;
  sample_check_accepts : list KeptRow;
  manual_check_rejected : list KeptRow;
  manual_check_accepted : list KeptRow
}.

Definition agent (k : KeptRow) : string := p_agent (k_pr k).

(** The module-level statements of [samples.py], from the Table 1 logic to
    the four samples.  [global] is numpy's global generator state when the
    script starts. *)
Definition main `{NumpyRandom} (global : rng) (repos : list Repository)
    (prs : list PullRequest) (comments : list Comment) : Result Outputs :=
  human ← human_commented_ids comments;
  '(sample_check_rejected, reject_remaining) ←
    stratified_n_sample global (combined_rejected repos prs human)
                        VALIDATE_AGREEMENT_SAMPLE agent;
  '(sample_check_accepts, accept_remaining) ←
    stratified_n_sample global (combined_accepted repos prs human)
                        VALIDATE_AGREEMENT_SAMPLE agent;
  '(manual_check_rejected, _) ←
    stratified_n_sample global reject_remaining
                        (REJECT_SAMPLE_SIZE repos prs human) agent;
  '(manual_check_accepted, _) ←
    stratified_n_sample global accept_remaining
                        (ACCEPT_SAMPLE_SIZE repos prs human) agent;
  Ok (mkOutputs sample_check_rejected sample_check_accepts
                manual_check_rejected manual_check_accepted).

(** [df[EXPORT_COLS]] with [EXPORT_COLS = ["id", "html_url", "agent"]]. *)
Definition export_cols (df : list KeptRow) : list (Z * string * string) :=
  fmap (λ k, (p_id (k_pr k), p_html_url (k_pr k), p_agent (k_pr k))) df.

(** The contents of the four CSV files, in the order they are written;
    [to_csv] is pandas' writer. *)
Definition csv_files (to_csv : list (Z * string * string) -> string)
    (o : Outputs) : list (string * string) :=
  [ ("sample_check_rejected.csv", to_csv (export_cols (sample_check_rejected o)));
    ("sample_check_accepts.csv", to_csv (export_cols (sample_check_accepts o)));
    ("manual_check_rejected.csv", to_csv (export_cols (manual_check_rejected o)));
    ("manual_check_accepted.csv", to_csv (export_cols (manual_check_accepted o))) ].

End Samples.


(** ** A concrete generator

    A small linear congruential generator implementing the interface: the
    permutation is a rotation of [range(n)] by the state, the allocation
    rounds the cumulative proportional shares. *)
Module Lcg.

Definition next (g : Z) : Z := (g * 1103515245 + 12345) mod 2147483648.

Definition rotation (g : Z) (n : nat) : list nat :=
  let k := Z.to_nat (g mod Z.of_nat n) in
  drop k (seq 0 n) ++ take k (seq 0 n).

Fixpoint cumulative_shares (N n C : nat) (cs : list nat) : list nat :=
  match cs with
  | [] => []
  | c :: cs' =>
      ((C + c) * n / N - C * n / N)%nat :: cumulative_shares N n (C + c) cs'
  end.

Definition shares (cs : list nat) (n : nat) : list nat :=
  cumulative_shares (sum_list cs) n 0 cs.

Lemma rotation_perm g n : rotation g n ≡ₚ seq 0 n.
Proof.
  unfold rotation.
  rewrite Permutation_app_comm.
  by rewrite take_drop.
Qed.

Lemma cumulative_shares_length N n C cs :
  length (cumulative_shares N n C cs) = length cs.
Proof. revert C. induction cs as [|c cs IH]; intros C; simpl; [done|by rewrite IH]. Qed.

Lemma div_mono_mul N n C c : (C * n / N ≤ (C + c) * n / N)%nat.
Proof. apply Nat.Div0.div_le_mono. nia. Qed.

Lemma cumulative_shares_sum N n C cs :
  sum_list (cumulative_shares N n C cs)
  = ((C + sum_list cs) * n / N - C * n / N)%nat.
Proof.
  revert C. induction cs as [|c cs IH]; intros C; simpl.
  - by rewrite Nat.add_0_r, Nat.sub_diag.
  - rewrite IH.
    pose proof (div_mono_mul N n C c).
    pose proof (div_mono_mul N n (C + c) (sum_list cs)).
    rewrite Nat.add_assoc. lia.
Qed.

Lemma share_bounds N n C c :
  (0 < N)%nat ->
  let m := ((C + c) * n / N - C * n / N)%nat in
  (N * m ≤ c * n + N)%nat ∧ (c * n ≤ N * m + N)%nat.
Proof.
  intros HN m. subst m.
  pose proof (div_mono_mul N n C c) as Hle.
  pose proof (Nat.div_mod ((C + c) * n) N ltac:(lia)) as E1.
  pose proof (Nat.div_mod (C * n) N ltac:(lia)) as E2.
  pose proof (Nat.mod_upper_bound ((C + c) * n) N ltac:(lia)).
  pose proof (Nat.mod_upper_bound (C * n) N ltac:(lia)).
  set (q1 := ((C + c) * n / N)%nat) in *.
  set (q2 := (C * n / N)%nat) in *.
  rewrite Nat.mul_sub_distr_l. nia.
Qed.

Lemma cumulative_shares_lookup N n C cs i c m :
  (0 < N)%nat ->
  cs !! i = Some c -> cumulative_shares N n C cs !! i = Some m ->
  (N * m ≤ c * n + N)%nat ∧ (c * n ≤ N * m + N)%nat.
Proof.
  intros HN. revert C i.
  induction cs as [|c' cs IH]; intros C [|i] Hc Hm; simplify_eq/=.
  - by apply share_bounds.
  - eauto.
Qed.

Lemma shares_sum cs n : (n ≤ sum_list cs)%nat -> sum_list (shares cs n) = n.
Proof.
  intros Hn. unfold shares. rewrite cumulative_shares_sum.
  rewrite Nat.mul_0_l, Nat.Div0.div_0_l, Nat.sub_0_r, Nat.add_0_l.
  destruct (decide (sum_list cs = 0%nat)) as [E|E].
  - rewrite E, Nat.div_0_r. lia.
  - rewrite Nat.mul_comm. by apply Nat.div_mul.
Qed.

Lemma shares_close cs n i c m :
  (n ≤ sum_list cs)%nat -> cs !! i = Some c -> shares cs n !! i = Some m ->
  (sum_list cs * m ≤ c * n + sum_list cs)%nat ∧
  (c * n ≤ sum_list cs * m + sum_list cs)%nat.
Proof.
  intros Hn Hc Hm.
  destruct (decide (sum_list cs = 0%nat)) as [E|E].
  - rewrite E in *. assert (n = 0%nat) by lia. subst. lia.
  - eapply cumulative_shares_lookup; eauto. lia.
Qed.

Lemma share_le N n C c :
  (0 < N)%nat -> (n ≤ N)%nat -> ((C + c) * n / N - C * n / N ≤ c)%nat.
Proof.
  intros HN Hn.
  pose proof (Nat.div_mod ((C + c) * n) N ltac:(lia)) as E1.
  pose proof (Nat.div_mod (C * n) N ltac:(lia)) as E2.
  pose proof (Nat.mod_upper_bound ((C + c) * n) N ltac:(lia)).
  pose proof (Nat.mod_upper_bound (C * n) N ltac:(lia)).
  set (q1 := ((C + c) * n / N)%nat) in *.
  set (q2 := (C * n / N)%nat) in *.
  nia.
Qed.

Lemma cumulative_shares_le N n C cs :
  (0 < N)%nat -> (n ≤ N)%nat -> Forall2 le (cumulative_shares N n C cs) cs.
Proof.
  intros HN Hn. revert C.
  induction cs as [|c cs IH]; intros C; simpl; constructor; auto using share_le.
Qed.

Lemma shares_le cs n : (n ≤ sum_list cs)%nat -> Forall2 le (shares cs n) cs.
Proof.
  intros Hn. unfold shares.
  destruct (decide (sum_list cs = 0%nat)) as [E|E].
  - rewrite E. generalize 0%nat at 2.
    induction cs as [|c cs IH]; intros C; simpl; constructor.
    + rewrite ?Nat.div_0_r. lia.
    + simpl in *. apply IH; lia.
  - apply cumulative_shares_le; lia.
Qed.

#[global, refine] Instance generator : NumpyRandom := {|
  rng := Z;
  RandomState := λ s, s;
  rng_permutation := λ g n, (rotation g n, next g);
  approximate_mode := λ cs n g, (shares cs n, g)
|}.
Proof.
  - intros g n. apply rotation_perm.
  - intros cs n g. apply cumulative_shares_length.
  - intros cs n g. apply shares_sum.
  - intros cs n g. apply shares_le.
  - intros cs n g i c m. apply shares_close.
Defined.

End Lcg.

(** * Properties *)

(** ** Casting and dropping nulls *)

Lemma elem_of_dropna (s : list (option Z)) z : z ∈ dropna s ↔ Some z ∈ s.
Proof.
  induction s as [|[y|] s IH]; simpl.
  - by rewrite !elem_of_nil.
  - rewrite !elem_of_cons, IH. naive_solver.
  - rewrite elem_of_cons, IH. naive_solver.
Qed.

Lemma astype_int_Ok (s : list (option Z)) l :
  astype_int s = Ok l -> s = Some <$> l.
Proof.
  revert l. induction s as [|[y|] s IH]; intros l Hl; simpl in Hl.
  - by inversion Hl.
  - destruct (astype_int s) as [l'|e] eqn:E; simpl in Hl; [|done].
    inversion Hl; subst. simpl. f_equal. by apply IH.
  - done.
Qed.

Lemma astype_int_dropna (s : list (option Z)) :
  Forall is_Some s -> astype_int s = Ok (dropna s).
Proof.
  induction 1 as [|[y|] s Hy Hs IH]; simpl.
  - done.
  - by rewrite IH.
  - by destruct Hy.
Qed.

Lemma astype_int_Err (s : list (option Z)) :
  None ∈ s -> astype_int s = Err IntCastingNaNError.
Proof.
  induction s as [|[y|] s IH]; intros Hin; simpl.
  - by apply elem_of_nil in Hin.
  - apply elem_of_cons in Hin as [|Hin]; [done|]. by rewrite IH.
  - done.
Qed.

(** ** The Selector *)

(** The partition property over the intermediate tables of a run:
    the selected PRs, the bot-assigned ones, the ids with a human comment,
    the excluded ids and the kept PRs. *)
Definition partition_property (bot_list : list string)
    (comments : list Comment) (selected bot_assigned : list PullRequest)
    (human excluded_ids : gset Z) (kept : list PullRequest) : Prop :=
  kept = filter (λ p, p_id p ∉ excluded_ids) selected ∧
  list_to_set (p_id <$> kept)
    = (list_to_set (p_id <$> selected) : gset Z) ∖ excluded_ids ∧
  excluded_ids ⊆ list_to_set (p_id <$> bot_assigned) ∧
  bot_assigned `sublist_of` selected ∧
  (∀ pr, pr ∈ bot_assigned ↔ pr ∈ selected ∧ p_user pr ∈ bot_list) ∧
  (∀ p, p ∈ human ↔
        ∃ c, c ∈ comments ∧ c_user_type c = "User" ∧ c_pr_id c = Some p) ∧
  (∀ p, p ∈ (list_to_set (p_id <$> selected) : gset Z) ->
        (p ∈ excluded_ids ↔
         p ∈ (list_to_set (p_id <$> bot_assigned) : gset Z) ∧ p ∉ human)).

(** Every comment typed ["User"] names its PR. *)
Definition user_comments_have_pr (comments : list Comment) : Prop :=
  ∀ c, c ∈ comments -> c_user_type c = "User" -> is_Some (c_pr_id c).

Lemma kept_rows_fmap (l : list PullRequest) :
  k_pr <$> ((λ p, mkKeptRow p (notna (p_merged_at p))) <$> l) = l.
Proof. rewrite <- list_fmap_compose. by rewrite list_fmap_id. Qed.

Lemma partition_property_intro bot_list comments selected (human : gset Z) :
  (∀ p, p ∈ human ↔
        ∃ c, c ∈ comments ∧ c_user_type c = "User" ∧ c_pr_id c = Some p) ->
  let bot_assigned := filter (λ p, p_user p ∈ bot_list) selected in
  let excluded_ids : gset Z :=
    list_to_set (p_id <$> filter (λ p, p_id p ∉ human) bot_assigned) in
  partition_property bot_list comments selected bot_assigned human excluded_ids
    (filter (λ p, p_id p ∉ excluded_ids) selected).
Proof.
  intros Hhuman bot_assigned excluded_ids.
  assert (Hex : ∀ p, p ∈ excluded_ids ↔
            (∃ pr, (p = p_id pr) ∧ (p_id pr ∉ human) ∧ (pr ∈ bot_assigned))).
  { intros p. subst excluded_ids.
    rewrite elem_of_list_to_set, list_elem_of_fmap.
    by setoid_rewrite list_elem_of_filter. }
  split_and!.
  - done.
  - apply set_eq. intros p.
    rewrite elem_of_difference, !elem_of_list_to_set, !list_elem_of_fmap.
    setoid_rewrite list_elem_of_filter. naive_solver.
  - intros p (pr & -> & _ & Hin)%Hex.
    rewrite elem_of_list_to_set, list_elem_of_fmap. eauto.
  - apply sublist_filter.
  - intros pr. subst bot_assigned. rewrite list_elem_of_filter. naive_solver.
  - done.
  - intros p _. rewrite Hex, elem_of_list_to_set, list_elem_of_fmap.
    naive_solver.
Qed.

Lemma Table1_user_commented_pr_ids_spec comments p :
  p ∈ Table1.user_commented_pr_ids comments ↔
  ∃ c, c ∈ comments ∧ c_user_type c = "User" ∧ c_pr_id c = Some p.
Proof.
  unfold Table1.user_commented_pr_ids.
  rewrite elem_of_list_to_set, elem_of_remove_dups, elem_of_dropna.
  rewrite list_elem_of_fmap.
  setoid_rewrite list_elem_of_filter. naive_solver.
Qed.

Lemma Samples_human_commented_ids_spec comments human p :
  Samples.human_commented_ids comments = Ok human ->
  p ∈ human ↔
  ∃ c, c ∈ comments ∧ c_user_type c = "User" ∧ c_pr_id c = Some p.
Proof.
  unfold Samples.human_commented_ids.
  destruct (astype_int _) as [ids|e] eqn:E; simpl; [|done].
  intros [= <-]. apply astype_int_Ok in E.
  rewrite elem_of_list_to_set.
  transitivity (Some p ∈ Some <$> ids).
  { rewrite list_elem_of_fmap. naive_solver. }
  rewrite <- E, list_elem_of_fmap.
  setoid_rewrite list_elem_of_filter. naive_solver.
Qed.

Lemma Samples_human_commented_ids_total comments :
  user_comments_have_pr comments ->
  Samples.human_commented_ids comments
  = Ok (Table1.user_commented_pr_ids comments).
Proof.
  intros Hc. unfold Samples.human_commented_ids, Table1.user_commented_pr_ids.
  rewrite astype_int_dropna; simpl.
  - f_equal. apply set_eq. intros p.
    by rewrite !elem_of_list_to_set, elem_of_remove_dups.
  - apply Forall_forall. intros o (c & -> & [Hu Hin]%list_elem_of_filter)%list_elem_of_fmap.
    by apply Hc.
Qed.

(** C1.  The Selector satisfies the partition property in both scripts:
    [kept] is [selected] without the rows whose id is excluded, the
    excluded ids are ids of bot-assigned PRs, the bot-assigned PRs are
    selected PRs whose user is in the bot-handle list, and an id of a
    selected PR is excluded exactly when it is the id of a bot-assigned PR
    and no comment typed ["User"] names it.  In [table1.py] this holds on
    every input; in [samples.py] it holds of every run whose cast of the
    commented ids succeeds, which it does when every ["User"] comment names
    its PR. *)
Theorem selector_partition_property
    (repos : list Repository) (prs : list PullRequest)
    (comments : list Comment) :
  partition_property Table1.BOT_LIST comments
    (Table1.selected repos prs) (Table1.bot_assigned repos prs)
    (Table1.user_commented_pr_ids comments)
    (Table1.excluded_ids repos prs comments)
    (k_pr <$> Table1.kept repos prs comments)
  ∧ Table1.excluded repos prs comments
      `sublist_of` Table1.bot_assigned repos prs
  ∧ Table1.kept_ids repos prs comments
      = list_to_set (p_id <$> (k_pr <$> Table1.kept repos prs comments))
  ∧ (∀ human, Samples.human_commented_ids comments = Ok human ->
       partition_property Samples.BOT_LIST comments
         (Samples.selected repos prs) (Samples.bot_assigned repos prs)
         human (Samples.excluded_ids repos prs human)
         (k_pr <$> Samples.kept repos prs human))
  ∧ (user_comments_have_pr comments ->
       ∃ human, Samples.human_commented_ids comments = Ok human).
Proof.
  pose proof (partition_property_intro Table1.BOT_LIST comments
                (Table1.selected repos prs)
                (Table1.user_commented_pr_ids comments)
                (Table1_user_commented_pr_ids_spec comments)) as HT.
  simpl in HT.
  split_and!.
  - unfold Table1.kept. rewrite kept_rows_fmap. exact HT.
  - apply sublist_filter.
  - unfold Table1.kept. rewrite kept_rows_fmap.
    destruct HT as (_ & HT & _). symmetry. exact HT.
  - intros human Hh. unfold Samples.kept. rewrite kept_rows_fmap.
    apply (partition_property_intro Samples.BOT_LIST comments
             (Samples.selected repos prs) human).
    intros p. by apply Samples_human_commented_ids_spec.
  - intros Hc. eexists. by apply Samples_human_commented_ids_total.
Qed.

(** ** Lists: filters and sorted lists *)

Section ListFacts.
Context {A B : Type}.

Lemma filter_ext_elem (P Q : A -> Prop) `{!∀ x, Decision (P x)}
    `{!∀ x, Decision (Q x)} (l : list A) :
  (∀ x, x ∈ l -> P x ↔ Q x) -> filter P l = filter Q l.
Proof.
  induction l as [|x l IH]; intros HPQ; [done|].
  rewrite !filter_cons.
  rewrite IH by (intros y Hy; apply HPQ; by right).
  apply decide_ext, HPQ. by left.
Qed.

Lemma filter_fmap (f : A -> B) (P : B -> Prop) `{!∀ y, Decision (P y)}
    (l : list A) :
  filter P (f <$> l) = f <$> filter (λ x, P (f x)) l.
Proof.
  induction l as [|x l IH]; [done|].
  rewrite fmap_cons, !filter_cons, IH.
  by destruct (decide (P (f x))).
Qed.

Lemma StronglySorted_filter (R : relation A) (P : A -> Prop)
    `{!∀ x, Decision (P x)} (l : list A) :
  StronglySorted R l -> StronglySorted R (filter P l).
Proof.
  induction 1 as [|x l Hl IH Hx]; [constructor|].
  rewrite filter_cons. destruct (decide (P x)); [|done].
  constructor; [done|].
  rewrite Forall_forall in Hx. apply Forall_forall.
  intros y [_ Hy]%list_elem_of_filter. by apply Hx.
Qed.

Lemma StronglySorted_NoDup (R : relation A) (l : list A) :
  (∀ x, ¬ R x x) -> StronglySorted R l -> NoDup l.
Proof.
  intros Hirr. induction 1 as [|x l Hl IH Hx]; constructor; [|done].
  rewrite Forall_forall in Hx. intros Hin. by apply (Hirr x), Hx.
Qed.

(** The rows satisfying one of two exclusive tests. *)
Lemma length_filter_or (P Q : A -> Prop) `{!∀ x, Decision (P x)}
    `{!∀ x, Decision (Q x)} (l : list A) :
  (∀ x, P x -> Q x -> False) ->
  length (filter (λ x, P x ∨ Q x) l)
  = (length (filter P l) + length (filter Q l))%nat.
Proof.
  intros Hex. induction l as [|x l IH]; [done|].
  rewrite !filter_cons.
  destruct (decide (P x)), (decide (Q x)), (decide (P x ∨ Q x));
    simpl; try (exfalso; naive_solver); lia.
Qed.
End ListFacts.

(** ** The order of group keys *)

Definition str_lt (a b : string) : Prop := String.compare a b = Lt.

#[global] Instance str_lt_dec : RelDecision str_lt.
Proof. intros a b. unfold str_lt. solve_decision. Defined.

#[global] Instance str_lt_trans : Transitive str_lt.
Proof.
  intros a b c Hab Hbc. unfold str_lt in *.
  apply String_as_OT.cmp_lt. apply String_as_OT.cmp_lt in Hab, Hbc.
  by eapply String_as_OT.lt_trans.
Qed.

Lemma str_lt_irrefl a : ¬ str_lt a a.
Proof.
  intros Ha%String_as_OT.cmp_lt. by apply String_as_OT.lt_not_eq in Ha.
Qed.

Lemma compare_Gt_lt a b : String.compare a b = Gt -> str_lt b a.
Proof.
  intros Hgt. unfold str_lt. rewrite String.compare_antisym, Hgt. done.
Qed.

Lemma str_lt_asym a b : str_lt a b -> str_lt b a -> a = b.
Proof. intros Hab Hba. destruct (str_lt_irrefl a). by etrans. Qed.

Lemma elem_of_insert_key a ks x : x ∈ insert_key a ks ↔ x = a ∨ x ∈ ks.
Proof.
  induction ks as [|b ks IH]; simpl.
  - rewrite list_elem_of_singleton, elem_of_nil. naive_solver.
  - destruct (String.compare a b) eqn:E.
    + apply String.compare_eq_iff in E as ->.
      rewrite elem_of_cons. naive_solver.
    + rewrite !elem_of_cons. naive_solver.
    + rewrite !elem_of_cons, IH. naive_solver.
Qed.

Lemma elem_of_group_keys col x : x ∈ group_keys col ↔ x ∈ col.
Proof.
  unfold group_keys. induction col as [|a col IH]; simpl; [done|].
  rewrite elem_of_insert_key, elem_of_cons, IH. done.
Qed.

Lemma insert_key_sorted a ks :
  StronglySorted str_lt ks -> StronglySorted str_lt (insert_key a ks).
Proof.
  induction 1 as [|b ks Hks IH Hb]; simpl.
  - repeat constructor.
  - destruct (String.compare a b) eqn:E.
    + by constructor.
    + constructor; [by constructor|].
      constructor; [done|].
      eapply Forall_impl; [exact Hb|]. intros c Hc. by trans b.
    + constructor; [done|].
      apply Forall_forall. intros c [->|Hc]%elem_of_insert_key.
      * by apply compare_Gt_lt.
      * rewrite Forall_forall in Hb. by apply Hb.
Qed.

Lemma group_keys_sorted col : StronglySorted str_lt (group_keys col).
Proof.
  unfold group_keys. induction col as [|a col IH]; simpl.
  - constructor.
  - by apply insert_key_sorted.
Qed.

Lemma sorted_same_elements (l1 l2 : list string) :
  StronglySorted str_lt l1 -> StronglySorted str_lt l2 ->
  (∀ x, x ∈ l1 ↔ x ∈ l2) -> l1 = l2.
Proof.
  intros H1 H2 Hel.
  apply (StronglySorted_unique_strong str_lt); [|done|done|].
  - intros. by apply str_lt_asym.
  - apply NoDup_Permutation; [| |done];
      by eapply StronglySorted_NoDup; [apply str_lt_irrefl|].
Qed.

(** ** The Aggregator *)

(** The table the Aggregator is meant to produce from [kept]: a row for
    each agent of the roster that has a kept PR, in the order of the
    roster. *)
Definition roster_table (agents : list string) (kept : list KeptRow)
    : list TableRow :=
  group_row kept
    <$> filter (λ a, a ∈ (λ k, p_agent (k_pr k)) <$> kept) agents.

Lemma filter_groupby_agent agents kept :
  StronglySorted str_lt agents ->
  filter (λ r, t_agent r ∈ agents) (groupby_agent kept)
  = roster_table agents kept.
Proof.
  intros Hsorted. unfold groupby_agent, roster_table.
  rewrite filter_fmap. simpl. f_equal.
  apply sorted_same_elements.
  - apply StronglySorted_filter, group_keys_sorted.
  - by apply StronglySorted_filter.
  - intros a. rewrite !list_elem_of_filter, elem_of_group_keys. naive_solver.
Qed.

Lemma sort_values_sorted key t :
  StronglySorted (λ r r', key_leb (key r) (key r') = true) t ->
  sort_values key t = t.
Proof.
  unfold sort_values. induction 1 as [|r t Ht IH Hr]; simpl; [done|].
  rewrite IH. destruct Hr as [|r' t' Hr']; simpl; [done|].
  by rewrite Hr'.
Qed.

Lemma AGENTS_sorted : StronglySorted str_lt Samples.AGENTS.
Proof. repeat constructor. Qed.

Lemma AGENTS_order_sorted :
  StronglySorted
    (λ a b, key_leb (Table1.order !! a) (Table1.order !! b) = true)
    Table1.AGENTS.
Proof. repeat constructor. Qed.

Lemma Samples_table1_eq repos prs human :
  Samples.table1 repos prs human
  = roster_table Samples.AGENTS (Samples.kept repos prs human).
Proof. apply filter_groupby_agent, AGENTS_sorted. Qed.

Lemma Table1_table1_eq repos prs comments :
  Table1.table1 repos prs comments
  = roster_table Table1.AGENTS (Table1.kept repos prs comments).
Proof.
  unfold Table1.table1, Table1.table.
  rewrite (filter_groupby_agent Table1.AGENTS) by apply AGENTS_sorted.
  apply sort_values_sorted. unfold roster_table.
  eapply StronglySorted_fmap;
    [|apply StronglySorted_filter, AGENTS_order_sorted].
  done.
Qed.

(** Sums over the rows of a roster table. *)
Lemma column_sum_total agents kept :
  NoDup agents ->
  column_sum t_total (group_row kept <$> agents)
  = Z.of_nat (length (filter (λ k, p_agent (k_pr k) ∈ agents) kept)).
Proof.
  unfold column_sum. induction 1 as [|a agents Ha Hnd IH]; csimpl.
  - rewrite (filter_ext_elem _ (λ _, False)); [|intros; by rewrite elem_of_nil].
    by induction kept.
  - rewrite IH. unfold count_total.
    rewrite (filter_ext_elem (λ k, p_agent (k_pr k) ∈ a :: agents)
               (λ k, p_agent (k_pr k) = a ∨ p_agent (k_pr k) ∈ agents));
      [|intros; by rewrite elem_of_cons].
    rewrite length_filter_or; [lia|].
    intros k <- Hk. done.
Qed.

Lemma column_sum_merged agents kept :
  NoDup agents ->
  column_sum t_merged (group_row kept <$> agents)
  = Z.of_nat (length (filter (λ k, p_agent (k_pr k) ∈ agents
                                   ∧ is_merged k = true) kept)).
Proof.
  unfold column_sum. induction 1 as [|a agents Ha Hnd IH]; csimpl.
  - rewrite (filter_ext_elem _ (λ _, False));
      [|intros; rewrite elem_of_nil; naive_solver].
    by induction kept.
  - rewrite IH. unfold sum_merged.
    rewrite (filter_ext_elem
               (λ k, p_agent (k_pr k) ∈ a :: agents ∧ is_merged k = true)
               (λ k, (p_agent (k_pr k) = a ∧ is_merged k = true)
                     ∨ (p_agent (k_pr k) ∈ agents ∧ is_merged k = true)));
      [|intros; rewrite elem_of_cons; naive_solver].
    rewrite length_filter_or; [lia|].
    intros k [<- _] [Hk _]. done.
Qed.

Lemma sum_merged_le_total a kept : sum_merged a kept ≤ count_total a kept.
Proof.
  unfold sum_merged, count_total.
  rewrite <- (list_filter_filter_l
                (λ k, p_agent (k_pr k) = a ∧ is_merged k = true)
                (λ k, p_agent (k_pr k) = a)) by naive_solver.
  pose proof (length_filter
    (λ k, p_agent (k_pr k) = a ∧ is_merged k = true)
    (filter (λ k, p_agent (k_pr k) = a) kept)). lia.
Qed.

Lemma column_sum_rejected agents kept :
  column_sum t_rejected (group_row kept <$> agents)
  = column_sum t_total (group_row kept <$> agents)
    - column_sum t_merged (group_row kept <$> agents).
Proof.
  unfold column_sum. induction agents as [|a agents IH]; csimpl; [done|].
  rewrite IH. lia.
Qed.

Lemma roster_present_NoDup (agents : list string) (kept : list KeptRow) :
  NoDup agents ->
  NoDup (filter (λ a, a ∈ (λ k, p_agent (k_pr k)) <$> kept) agents).
Proof. apply NoDup_filter. Qed.

Lemma roster_table_total agents kept :
  NoDup agents ->
  column_sum t_total (roster_table agents kept)
  = Z.of_nat (length (filter (λ k, p_agent (k_pr k) ∈ agents) kept)).
Proof.
  intros Hnd. unfold roster_table.
  rewrite column_sum_total by by apply roster_present_NoDup.
  do 2 f_equal. apply filter_ext_elem. intros k Hk.
  rewrite list_elem_of_filter, list_elem_of_fmap. naive_solver.
Qed.

Lemma roster_table_merged agents kept :
  NoDup agents ->
  column_sum t_merged (roster_table agents kept)
  = Z.of_nat (length (filter (λ k, p_agent (k_pr k) ∈ agents
                                   ∧ is_merged k = true) kept)).
Proof.
  intros Hnd. unfold roster_table.
  rewrite column_sum_merged by by apply roster_present_NoDup.
  do 2 f_equal. apply filter_ext_elem. intros k Hk.
  rewrite list_elem_of_filter, list_elem_of_fmap. naive_solver.
Qed.

Lemma AGENTS_NoDup : NoDup Samples.AGENTS.
Proof. eapply StronglySorted_NoDup; [apply str_lt_irrefl|apply AGENTS_sorted]. Qed.

(** The first scenario of the specification: one eligible repository, one
    kept PR of agent Devin. *)
Definition scenario_repos : list Repository :=
  [mkRepository 1 600; mkRepository 2 100].

Definition scenario_prs : list PullRequest :=
  [ mkPullRequest 10 1 "Devin" "alice" "closed" (Some "2024-01-01") "";
    mkPullRequest 11 2 "Devin" "bob" "closed" None "" ].

Example scenario_table1 :
  Table1.repo_ids scenario_repos = {[1]} ∧
  p_id <$> Table1.selected scenario_repos scenario_prs = [10] ∧
  (p_id ∘ k_pr) <$> Table1.kept scenario_repos scenario_prs [] = [10] ∧
  Table1.table1 scenario_repos scenario_prs [] = [mkTableRow "Devin" 1 1 0].
Proof. by vm_compute. Qed.

(** The second scenario: a PR of ["cursor[bot]"] without comment is
    excluded, and kept once a ["User"] comment names it. *)
Example scenario_bot_pr :
  let prs := [mkPullRequest 20 1 "Cursor" "cursor[bot]" "closed" None ""] in
  Table1.kept scenario_repos prs [] = [] ∧
  (p_id ∘ k_pr) <$> Table1.kept scenario_repos prs [mkComment (Some 20) "User"]
    = [20].
Proof. by vm_compute. Qed.

(** C4, as stated, fails: on the first scenario of the specification the
    table of either script has the single row of Devin, and no row for the
    four other agents of the roster. *)
Lemma table1_omits_absent_agents :
  t_agent <$> Table1.table1 scenario_repos scenario_prs [] = ["Devin"] ∧
  t_agent <$> Samples.table1 scenario_repos scenario_prs ∅ = ["Devin"] ∧
  Samples.human_commented_ids [] = Ok ∅ ∧
  length Table1.AGENTS = 5%nat.
Proof. by vm_compute. Qed.

(** C4, amended.  Table 1 contains exactly one row for every agent of the
    fixed roster that has at least one kept PR, no other row, and its rows
    appear in roster order: the agent column is the roster restricted to
    the agents present in [kept]. *)
Theorem table1_rows_in_roster_order
    (repos : list Repository) (prs : list PullRequest)
    (comments : list Comment) :
  t_agent <$> Table1.table1 repos prs comments
    = filter (λ a, a ∈ (λ k, p_agent (k_pr k))
                         <$> Table1.kept repos prs comments) Table1.AGENTS
  ∧ NoDup (t_agent <$> Table1.table1 repos prs comments)
  ∧ (∀ human,
       t_agent <$> Samples.table1 repos prs human
         = filter (λ a, a ∈ (λ k, p_agent (k_pr k))
                              <$> Samples.kept repos prs human) Samples.AGENTS
       ∧ NoDup (t_agent <$> Samples.table1 repos prs human)).
Proof.
  assert (Hagents : ∀ agents kept,
            t_agent <$> roster_table agents kept
            = filter (λ a, a ∈ (λ k, p_agent (k_pr k)) <$> kept) agents).
  { intros agents kept. unfold roster_table.
    rewrite <- list_fmap_compose. apply list_fmap_id. }
  rewrite Table1_table1_eq, Hagents. split_and!.
  - done.
  - apply roster_present_NoDup, AGENTS_NoDup.
  - intros human. rewrite Samples_table1_eq, Hagents. split; [done|].
    apply roster_present_NoDup, AGENTS_NoDup.
Qed.

(** C5.  In Table 1 of either script every row has
    [rejected = total - merged], and the [total] column sums to the number
    of kept PRs whose agent is in the fixed roster. *)
Theorem table1_aggregation_correct
    (repos : list Repository) (prs : list PullRequest)
    (comments : list Comment) :
  (∀ r, r ∈ Table1.table1 repos prs comments ->
        t_rejected r = t_total r - t_merged r)
  ∧ Table1.total_total repos prs comments
    = Z.of_nat (length (filter (λ k, p_agent (k_pr k) ∈ Table1.AGENTS)
                               (Table1.kept repos prs comments)))
  ∧ (∀ human,
       (∀ r, r ∈ Samples.table1 repos prs human ->
             t_rejected r = t_total r - t_merged r)
       ∧ column_sum t_total (Samples.table1 repos prs human)
         = Z.of_nat (length (filter (λ k, p_agent (k_pr k) ∈ Samples.AGENTS)
                                    (Samples.kept repos prs human)))).
Proof.
  assert (Hrow : ∀ agents kept r,
            r ∈ roster_table agents kept ->
            t_rejected r = t_total r - t_merged r).
  { intros agents kept r (a & -> & _)%list_elem_of_fmap. done. }
  unfold Table1.total_total. rewrite Table1_table1_eq. split_and!.
  - apply Hrow.
  - apply roster_table_total, AGENTS_NoDup.
  - intros human. rewrite Samples_table1_eq. split.
    + apply Hrow.
    + apply roster_table_total, AGENTS_NoDup.
Qed.

(** C9.  The two scripts implement the same Selector and Aggregator: when
    every comment typed ["User"] names its PR, the module-level pipeline of
    [samples.py] computes its set of commented ids, and its kept rows (with
    their [is_merged] column) and its Table 1 are those of [main] in
    [table1.py]. *)
Theorem scripts_agree
    (repos : list Repository) (prs : list PullRequest)
    (comments : list Comment) :
  user_comments_have_pr comments ->
  ∃ human,
    Samples.human_commented_ids comments = Ok human ∧
    Samples.kept repos prs human = Table1.kept repos prs comments ∧
    Samples.table1 repos prs human = Table1.table1 repos prs comments.
Proof.
  intros Hc. exists (Table1.user_commented_pr_ids comments). split_and!.
  - by apply Samples_human_commented_ids_total.
  - reflexivity.
  - rewrite Samples_table1_eq, Table1_table1_eq. reflexivity.
Qed.

(** A comment table for the scenarios: one human comment on PR 10, one
    bot comment without PR. *)
Definition scenario_comments : list Comment :=
  [mkComment (Some 10) "User"; mkComment None "Bot"].

Lemma scenario_comments_have_pr : user_comments_have_pr scenario_comments.
Proof.
  intros c Hc Hu. unfold scenario_comments in Hc.
  apply elem_of_cons in Hc as [->|Hc]; [by eexists|].
  apply list_elem_of_singleton in Hc as ->. done.
Qed.

Lemma scripts_agree_witness :
  user_comments_have_pr scenario_comments ∧
  ∃ human,
    Samples.human_commented_ids scenario_comments = Ok human ∧
    Samples.kept scenario_repos scenario_prs human
      = Table1.kept scenario_repos scenario_prs scenario_comments ∧
    Samples.table1 scenario_repos scenario_prs human
      = Table1.table1 scenario_repos scenario_prs scenario_comments.
Proof.
  split.
  - exact scenario_comments_have_pr.
  - exact (scripts_agree scenario_repos scenario_prs scenario_comments
             scenario_comments_have_pr).
Defined.

(** Without the assumption the scripts differ: a ["User"] comment with a
    null [pr_id] makes [samples.py] raise where [table1.py] drops it. *)
Lemma samples_raises_on_null_pr_id comments :
  (∃ c, c ∈ comments ∧ c_user_type c = "User" ∧ c_pr_id c = None) ->
  Samples.human_commented_ids comments = Err IntCastingNaNError.
Proof.
  intros (c & Hc & Hu & Hn). unfold Samples.human_commented_ids.
  rewrite astype_int_Err; [done|].
  rewrite <- Hn. apply list_elem_of_fmap_2. by apply list_elem_of_filter.
Qed.

(** ** The split: index bookkeeping *)

Section SplitFacts.
Context {A : Type}.

Lemma lookup_fmap_seq (l : list A) :
  (λ j, l !! j) <$> seq 0 (length l) = Some <$> l.
Proof.
  apply list_eq. intros i. rewrite !list_lookup_fmap.
  destruct (decide (i < length l)%nat) as [Hi|Hi].
  - rewrite lookup_seq_lt by done. simpl.
    destruct (lookup_lt_is_Some_2 l i Hi) as [x Hx]. by rewrite Hx.
  - rewrite lookup_seq_ge by lia. rewrite lookup_ge_None_2 by lia. done.
Qed.

Lemma omap_Some (l : list A) : omap (λ x, x) (Some <$> l) = l.
Proof. induction l as [|x l IH]; csimpl; [done|by rewrite IH]. Qed.

Lemma filter_or_perm (P Q : A -> Prop) `{!∀ x, Decision (P x)}
    `{!∀ x, Decision (Q x)} (l : list A) :
  (∀ x, P x -> Q x -> False) ->
  filter P l ++ filter Q l ≡ₚ filter (λ x, P x ∨ Q x) l.
Proof.
  intros Hex. induction l as [|x l IH]; [done|].
  rewrite !filter_cons.
  destruct (decide (P x)), (decide (Q x)), (decide (P x ∨ Q x));
    simpl; try (exfalso; naive_solver).
  - by rewrite IH.
  - by rewrite <- Permutation_middle, IH.
  - done.
Qed.
End SplitFacts.

Lemma lookup_total_fmap_seq (l : list nat) :
  (λ j, l !!! (j `min` (length l - 1))%nat) <$> seq 0 (length l) = l.
Proof.
  apply list_eq. intros i. rewrite list_lookup_fmap.
  destruct (decide (i < length l)%nat) as [Hi|Hi].
  - rewrite lookup_seq_lt by done. simpl.
    rewrite Nat.min_l by lia. symmetry. by apply list_lookup_lookup_total_lt.
  - rewrite lookup_seq_ge by lia. rewrite lookup_ge_None_2 by lia. done.
Qed.

Lemma sum_list_concat (ls : list (list nat)) :
  length (concat ls) = sum_list (length <$> ls).
Proof.
  induction ls as [|l ls IH]; csimpl; [done|].
  by rewrite length_app, IH.
Qed.

(** Two allocations bounded pointwise with the same total are equal. *)
Lemma Forall2_le_sum_eq (ts rs : list nat) :
  Forall2 le ts rs -> sum_list ts = sum_list rs -> ts = rs.
Proof.
  induction 1 as [|t r ts rs Htr Hle IH]; simpl; [done|].
  intros Hsum.
  assert (sum_list ts ≤ sum_list rs)%nat.
  { clear -Hle. induction Hle; simpl; lia. }
  f_equal; [lia|]. apply IH. lia.
Qed.

Section SplitProofs.
Context `{NumpyRandom}.

Lemma take_clip_perm (arr p : list nat) :
  p ≡ₚ seq 0 (length arr) -> take_clip arr p ≡ₚ arr.
Proof.
  intros Hp. unfold take_clip. rewrite Hp.
  by rewrite lookup_total_fmap_seq.
Qed.

Lemma permute_perm (g : rng) (arr : list nat) : (permute g arr).1 ≡ₚ arr.
Proof.
  unfold permute.
  pose proof (rng_permutation_perm g (length arr)) as Hp.
  destruct (rng_permutation g (length arr)) as [p g']. simpl in *.
  by apply take_clip_perm.
Qed.

(** The loop over the classes hands every index of every class to exactly
    one of [train] and [test]. *)
Lemma split_classes_spec (g : rng) (cis : list (list nat)) (cs ns : list nat) :
  Forall2 (λ ci c, length ci = c) cis cs ->
  Forall2 le ns cs ->
  let r := split_classes g cis cs ns (zip_with Nat.sub cs ns) in
  r.1.1 ++ r.1.2 ≡ₚ concat cis ∧
  length r.1.1 = sum_list ns ∧
  length r.1.2 = sum_list (zip_with Nat.sub cs ns).
Proof.
  intros Hcis. revert g ns.
  induction Hcis as [|ci c cis cs Hci Hcis IH]; intros g ns Hns.
  { inversion Hns; subst. simpl. done. }
  inversion Hns as [|n c' ns' cs' Hn Hns']; subst. simpl.
  pose proof (rng_permutation_perm g (length ci)) as Hp.
  destruct (rng_permutation g (length ci)) as [p g1]. simpl in Hp.
  specialize (IH g1 ns' Hns'). simpl in IH.
  destruct (split_classes g1 cis cs ns' (zip_with Nat.sub cs ns'))
    as [[train test] g2]. simpl in *.
  destruct IH as (IH1 & IH2 & IH3).
  pose proof (take_clip_perm ci p Hp) as Hclip.
  assert (Hlen : length (take_clip ci p) = length ci).
  { by rewrite Hclip. }
  set (q := take_clip ci p) in *.
  assert (Htake : take (length ci - n) (drop n q) = drop n q).
  { apply take_ge. rewrite length_drop. lia. }
  rewrite Htake. split_and!.
  - rewrite <- IH1, <- Hclip.
    transitivity ((take n q ++ drop n q) ++ train ++ test).
    + rewrite <- !(assoc_L (++)). f_equiv.
      rewrite !(assoc_L (++)). f_equiv. apply Permutation_app_comm.
    + by rewrite take_drop.
  - rewrite length_app, length_take_le by lia. lia.
  - rewrite length_app, length_drop. lia.
Qed.

(** A class that is not drawn entirely leaves one of its indices in
    [test]. *)
Lemma split_classes_test_elem (g : rng) (cis : list (list nat))
    (cs ns : list nat) (i : nat) (ci : list nat) (n : nat) :
  Forall2 (λ ci c, length ci = c) cis cs ->
  Forall2 le ns cs ->
  cis !! i = Some ci -> ns !! i = Some n -> (n < length ci)%nat ->
  ∃ j, j ∈ (split_classes g cis cs ns (zip_with Nat.sub cs ns)).1.2 ∧ j ∈ ci.
Proof.
  intros Hcis. revert g ns i.
  induction Hcis as [|ci0 c cis cs Hci0 Hcis IH]; intros g ns i Hns Hci Hn Hlt.
  { done. }
  inversion Hns as [|n0 c' ns' cs' Hn0 Hns']; subst. simpl.
  pose proof (rng_permutation_perm g (length ci0)) as Hp.
  destruct (rng_permutation g (length ci0)) as [p g1]. simpl in Hp.
  pose proof (take_clip_perm ci0 p Hp) as Hclip.
  destruct i as [|i]; simplify_eq/=.
  - destruct (split_classes g1 cis cs ns' (zip_with Nat.sub cs ns'))
      as [[train test] g2]. simpl.
    assert (Hlen : length (take_clip ci p) = length ci) by by rewrite Hclip.
    set (q := take_clip ci p) in *.
    assert (Htake : take (length ci - n) (drop n q) = drop n q).
    { apply take_ge. rewrite length_drop. lia. }
    rewrite Htake.
    destruct (drop n q) as [|j l] eqn:E.
    { apply (f_equal length) in E. rewrite length_drop in E. simpl in E. lia. }
    exists j. split; [by left|].
    rewrite <- Hclip. apply (subseteq_drop n). fold q. rewrite E. by left.
  - destruct (IH g1 ns' i Hns' Hci Hn Hlt) as (j & Hj & Hjc).
    destruct (split_classes g1 cis cs ns' (zip_with Nat.sub cs ns'))
      as [[train test] g2]. simpl in *.
    exists j. split; [|done]. apply elem_of_app. by right.
Qed.

(** The index lists of the classes cover [range(len(y))]. *)
Lemma class_indices_covered (y : list string) (l : list nat) (ks : list string) :
  NoDup ks ->
  concat ((λ c, filter (λ j, y !! j = Some c) l) <$> ks)
  ≡ₚ filter (λ j, y !! j ∈ Some <$> ks) l.
Proof.
  induction 1 as [|k ks Hk Hnd IH]; csimpl.
  - rewrite (filter_ext_elem _ (λ _, False));
      [|intros; by rewrite elem_of_nil].
    by induction l.
  - rewrite IH.
    rewrite filter_or_perm.
    + rewrite (filter_ext_elem (λ j, y !! j ∈ Some k :: (Some <$> ks))
                 (λ j, y !! j = Some k ∨ y !! j ∈ Some <$> ks)); [done|].
      intros j _. rewrite elem_of_cons. naive_solver.
    + intros j Hj (k' & Hk' & Hin)%list_elem_of_fmap.
      rewrite Hj in Hk'. by simplify_eq.
Qed.

Lemma class_indices_perm (y : list string) :
  concat ((λ c, filter (λ j, y !! j = Some c) (seq 0 (length y)))
            <$> group_keys y)
  ≡ₚ seq 0 (length y).
Proof.
  rewrite class_indices_covered.
  - rewrite (filter_ext_elem _ (λ _, True)).
    + induction (seq 0 (length y)) as [|? ? IH]; [done|].
      rewrite filter_cons_True by done. by rewrite IH at 1.
    + intros j [_ Hj]%elem_of_seq. split; [done|intros _].
      destruct (lookup_lt_is_Some_2 y j) as [a Ha]; [lia|].
      rewrite Ha. apply list_elem_of_fmap_2, elem_of_group_keys.
      by eapply list_elem_of_lookup_2.
  - eapply StronglySorted_NoDup; [apply str_lt_irrefl|apply group_keys_sorted].
Qed.

Lemma class_indices_length (y : list string) (c : string) :
  length (filter (λ j, y !! j = Some c) (seq 0 (length y)))
  = length (filter (λ v, v = c) y).
Proof.
  assert (Hgen : ∀ l : list nat,
            length (filter (λ j, y !! j = Some c) l)
            = length (filter (λ v, v = c) (omap (λ j, y !! j) l))).
  { induction l as [|j l IH]; csimpl; [done|].
    rewrite filter_cons.
    destruct (y !! j) as [a|] eqn:E; simpl.
    - rewrite filter_cons.
      destruct (decide (Some a = Some c)), (decide (a = c));
        simplify_eq; simpl; by rewrite ?IH.
    - destruct (decide (None = Some c)); [done|]. done. }
  rewrite Hgen. do 2 f_equal.
  rewrite <- (omap_Some y) at 2. rewrite <- lookup_fmap_seq.
  generalize (seq 0 (length y)). intros l.
  induction l as [|j l IH]; csimpl; [done|].
  by destruct (y !! j); rewrite IH.
Qed.
End SplitProofs.

(** ** When the stratified split succeeds *)

(** [np.bincount(y_indices)]: the number of rows of each class, in the
    order of the sorted classes. *)
Definition class_counts (y : list string) : list nat :=
  (λ c, length (filter (λ v, v = c) y)) <$> group_keys y.

(** The three guards of [StratifiedShuffleSplit]: every class has at least
    two members, and neither side of the split is smaller than the number
    of classes. *)
Definition stratifiable (y : list string) (n_train n_test : nat) : Prop :=
  Forall (λ c, 2 ≤ c)%nat (class_counts y) ∧
  (length (group_keys y) ≤ n_train)%nat ∧
  (length (group_keys y) ≤ n_test)%nat.

#[global] Instance stratifiable_dec y n_train n_test :
  Decision (stratifiable y n_train n_test).
Proof. unfold stratifiable. apply _. Defined.

Lemma sum_list_sub (cs ns : list nat) :
  Forall2 le ns cs ->
  (sum_list (zip_with Nat.sub cs ns) + sum_list ns = sum_list cs)%nat.
Proof. induction 1; simpl; lia. Qed.

Lemma Forall2_sub_le (cs ns : list nat) :
  Forall2 le ns cs -> length (zip_with Nat.sub cs ns) = length cs.
Proof.
  intros Hle. apply length_zip_with_l_eq. symmetry.
  by eapply Forall2_length.
Qed.

Section StratifiedSplit.
Context `{NumpyRandom}.

Lemma class_counts_sum (y : list string) : sum_list (class_counts y) = length y.
Proof.
  transitivity (length (seq 0 (length y))); [|apply length_seq].
  rewrite <- (class_indices_perm y).
  rewrite sum_list_concat, <- list_fmap_compose. unfold class_counts.
  f_equal. apply list_fmap_ext. intros _ c _. simpl.
  symmetry. apply class_indices_length.
Qed.

Lemma class_indices_counts (y : list string) :
  Forall2 (λ ci c, length ci = c)
    ((λ c, filter (λ j, y !! j = Some c) (seq 0 (length y))) <$> group_keys y)
    (class_counts y).
Proof.
  unfold class_counts. apply Forall2_fmap, Forall_Forall2_diag, Forall_forall.
  intros c _. apply class_indices_length.
Qed.

Lemma stratified_shuffle_split_Err global y n_train n_test random_state :
  ¬ stratifiable y n_train n_test ->
  ∃ msg, stratified_shuffle_split global y n_train n_test random_state
         = Err (ValueError msg).
Proof.
  intros Hns. unfold stratified_shuffle_split.
  fold (class_counts y).
  repeat case_bool_decide; eauto.
  destruct Hns. split_and!; [|lia..].
  apply Forall_forall. intros c Hc.
  destruct (decide (2 ≤ c)%nat); [done|].
  exfalso. apply H0. apply Exists_exists. exists c. split; [done|lia].
Qed.

Lemma stratified_shuffle_split_Ok global y n_train n_test random_state :
  stratifiable y n_train n_test ->
  (n_train + n_test)%nat = length y ->
  ∃ train test,
    stratified_shuffle_split global y n_train n_test random_state
    = Ok (train, test) ∧
    train ++ test ≡ₚ seq 0 (length y) ∧
    length train = n_train ∧ length test = n_test ∧
    (∀ i c, group_keys y !! i = Some c ->
       (length (filter (λ v, v = c) y) * n_train + length y
        < length y * length (filter (λ v, v = c) y))%nat ->
       ∃ j, j ∈ test ∧ y !! j = Some c).
Proof.
  intros (Hc & Htr & Hte) Hn. unfold stratified_shuffle_split.
  fold (class_counts y).
  rewrite bool_decide_eq_false_2; last first.
  { intros (c & Hin & Hlt)%Exists_exists.
    rewrite Forall_forall in Hc. specialize (Hc c Hin). lia. }
  rewrite !bool_decide_eq_false_2 by lia.
  set (g0 := check_random_state global random_state).
  pose proof (class_counts_sum y) as Hsum.
  pose proof (approximate_mode_sum (class_counts y) n_train g0 ltac:(lia)) as Hs1.
  pose proof (approximate_mode_le (class_counts y) n_train g0 ltac:(lia)) as Hl1.
  pose proof (approximate_mode_close (class_counts y) n_train g0) as Hcl.
  destruct (approximate_mode (class_counts y) n_train g0) as [n_i g1].
  simpl in Hs1, Hl1, Hcl.
  pose proof (sum_list_sub _ _ Hl1) as Hrem.
  set (rem := zip_with Nat.sub (class_counts y) n_i) in *.
  pose proof (approximate_mode_sum rem n_test g1 ltac:(lia)) as Hs2.
  pose proof (approximate_mode_le rem n_test g1 ltac:(lia)) as Hl2.
  destruct (approximate_mode rem n_test g1) as [t_i g2].
  simpl in Hs2, Hl2.
  assert (t_i = rem) as -> by (apply Forall2_le_sum_eq; [done|lia]).
  pose proof (split_classes_spec g2 _ _ n_i (class_indices_counts y) Hl1)
    as (Hperm & Hlen1 & Hlen2).
  pose proof (λ i ci n,
    split_classes_test_elem g2 _ _ n_i i ci n (class_indices_counts y) Hl1)
    as Helem.
  fold rem in Hperm, Hlen1, Hlen2, Helem.
  destruct (split_classes g2 _ (class_counts y) n_i rem)
    as [[train test] g3]. simpl in Hperm, Hlen1, Hlen2, Helem.
  pose proof (permute_perm g3 train) as Hp1.
  destruct (permute g3 train) as [train' g4]. simpl in Hp1.
  pose proof (permute_perm g4 test) as Hp2.
  destruct (permute g4 test) as [test' g5]. simpl in Hp2.
  exists train', test'. split_and!.
  - done.
  - by rewrite Hp1, Hp2, Hperm, class_indices_perm.
  - rewrite Hp1. lia.
  - rewrite Hp2. lia.
  - intros i c Hi Hlt.
    assert (Hcc : class_counts y !! i
                  = Some (length (filter (λ v, v = c) y))).
    { unfold class_counts. by rewrite list_lookup_fmap, Hi. }
    destruct (lookup_lt_is_Some_2 n_i i) as [m Hm].
    { apply Forall2_length in Hl1. rewrite Hl1.
      by eapply lookup_lt_Some. }
    destruct (Hcl i _ m ltac:(lia) Hcc Hm) as [Hup _].
    rewrite Hsum in Hup.
    destruct (Helem i (filter (λ j, y !! j = Some c) (seq 0 (length y))) m)
      as (j & Hj & Hjc).
    + by rewrite list_lookup_fmap, Hi.
    + done.
    + rewrite class_indices_length. nia.
    + exists j. split; [by rewrite Hp2|].
      by apply list_elem_of_filter in Hjc as [? _].
Qed.
End StratifiedSplit.

(** ** [train_test_split] and [stratified_n_sample] *)

Section Sampler.
Context `{NumpyRandom}.
Context {A : Type}.

Lemma validate_shuffle_split_Ok (n_samples : nat) (test_size : Z) :
  0 < test_size < Z.of_nat n_samples ->
  validate_shuffle_split n_samples test_size
  = Ok ((n_samples - Z.to_nat test_size)%nat, Z.to_nat test_size).
Proof.
  intros Hts. unfold validate_shuffle_split.
  by rewrite !bool_decide_eq_false_2 by lia.
Qed.

Lemma validate_shuffle_split_Err (n_samples : nat) (test_size : Z) :
  ¬ (0 < test_size < Z.of_nat n_samples) ->
  ∃ msg, validate_shuffle_split n_samples test_size = Err (ValueError msg).
Proof.
  intros Hts. unfold validate_shuffle_split.
  rewrite bool_decide_eq_true_2 by lia. eauto.
Qed.

Lemma iloc_Ok (df : list A) (idx : list nat) :
  Forall (λ i, i < length df)%nat idx ->
  ∃ rows, iloc df idx = Ok rows ∧ Some <$> rows = (λ i, df !! i) <$> idx.
Proof.
  intros Hidx. unfold iloc.
  destruct (mapM (λ i, df !! i) idx) as [rows|] eqn:E.
  - exists rows. split; [done|].
    apply mapM_Some in E. induction E as [|i x idx' rows' Hi _ IH]; csimpl.
    + done.
    + inversion Hidx; subst. rewrite Hi. f_equal. by apply IH.
  - assert (is_Some (mapM (λ i, df !! i) idx)) as [? Hs]; [|congruence].
    apply mapM_is_Some_2. eapply Forall_impl; [exact Hidx|].
    intros i Hi. by apply lookup_lt_is_Some_2.
Qed.

Lemma rows_of_split (df a b : list A) (train test : list nat) :
  train ++ test ≡ₚ seq 0 (length df) ->
  Some <$> a = (λ i, df !! i) <$> train ->
  Some <$> b = (λ i, df !! i) <$> test ->
  a ++ b ≡ₚ df.
Proof.
  intros Hperm Ha Hb.
  rewrite <- (omap_Some (a ++ b)), <- (omap_Some df).
  rewrite fmap_app, Ha, Hb, <- fmap_app, Hperm.
  by rewrite lookup_fmap_seq.
Qed.

Lemma train_test_split_Ok global (df : list A) test_size stratify random_state :
  length stratify = length df ->
  0 < test_size < Z.of_nat (length df) ->
  stratifiable stratify (length df - Z.to_nat test_size) (Z.to_nat test_size) ->
  ∃ a b,
    train_test_split global df test_size stratify random_state = Ok (a, b) ∧
    a ++ b ≡ₚ df ∧
    length a = (length df - Z.to_nat test_size)%nat ∧
    length b = Z.to_nat test_size ∧
    (∀ i c, group_keys stratify !! i = Some c ->
       (length (filter (λ v, v = c) stratify)
          * (length df - Z.to_nat test_size) + length df
        < length df * length (filter (λ v, v = c) stratify))%nat ->
       ∃ j x, x ∈ b ∧ df !! j = Some x ∧ stratify !! j = Some c).
Proof.
  intros Hlen Hts Hstrat. unfold train_test_split.
  rewrite validate_shuffle_split_Ok by done. simpl.
  destruct (stratified_shuffle_split_Ok global stratify _ _ random_state Hstrat)
    as (train & test & -> & Hperm & Htr & Hte & Hcls); [lia|].
  simpl. rewrite Hlen in Hperm.
  assert (Hin : Forall (λ i, i < length df)%nat (train ++ test)).
  { apply Forall_forall. intros i Hi. rewrite Hperm in Hi.
    apply elem_of_seq in Hi. lia. }
  apply Forall_app in Hin as [Hin1 Hin2].
  destruct (iloc_Ok df train Hin1) as (a & -> & Ha).
  destruct (iloc_Ok df test Hin2) as (b & -> & Hb). simpl.
  exists a, b. split_and!; [done|by eapply rows_of_split|..].
  - rewrite <- Htr, <- (length_fmap Some a), Ha. by rewrite length_fmap.
  - rewrite <- Hte, <- (length_fmap Some b), Hb. by rewrite length_fmap.
  - intros i c Hi Hlt.
    destruct (Hcls i c Hi) as (j & Hj & Hjc); [by rewrite Hlen|].
    assert (Hx : df !! j ∈ Some <$> b).
    { rewrite Hb. by apply (list_elem_of_fmap_2 (λ i, df !! i)). }
    apply list_elem_of_fmap in Hx as (x & Hx & Hin).
    by exists j, x.
Qed.

Lemma train_test_split_Err global (df : list A) test_size stratify random_state :
  ¬ (0 < test_size < Z.of_nat (length df) ∧
     stratifiable stratify (length df - Z.to_nat test_size)
                  (Z.to_nat test_size)) ->
  ∃ msg, train_test_split global df test_size stratify random_state
         = Err (ValueError msg).
Proof.
  intros Hn. unfold train_test_split.
  destruct (decide (0 < test_size < Z.of_nat (length df))) as [Hts|Hts].
  - rewrite validate_shuffle_split_Ok by done. simpl.
    destruct (stratified_shuffle_split_Err global stratify
                (length df - Z.to_nat test_size) (Z.to_nat test_size)
                random_state) as [msg ->]; [tauto|].
    by exists msg.
  - destruct (validate_shuffle_split_Err (length df) test_size Hts) as [msg ->].
    by exists msg.
Qed.

(** The inputs on which [stratified_n_sample] returns: the clamped size is
    [0] or the size of the pool, or the split is a proper one that passes
    the guards of the stratified split. *)
Definition sampleable (df : list A) (n : Z) (col : A -> string) : Prop :=
  let n' := Z.min n (Z.of_nat (length df)) in
  n' = 0 ∨ n' = Z.of_nat (length df) ∨
  (0 < n' ∧
   stratifiable (col <$> df) (Z.to_nat n') (length df - Z.to_nat n')).

Lemma stratified_n_sample_Ok global (df : list A) n col :
  sampleable df n col ->
  ∃ sample remainder,
    Samples.stratified_n_sample global df n col = Ok (sample, remainder) ∧
    sample ++ remainder ≡ₚ df ∧
    Z.of_nat (length sample) = Z.min n (Z.of_nat (length df)).
Proof.
  unfold sampleable, Samples.stratified_n_sample.
  set (n' := Z.min n (Z.of_nat (length df))). intros Hs.
  case_bool_decide as H0.
  { exists [], df. by rewrite H0. }
  case_bool_decide as H1.
  { exists df, []. by rewrite app_nil_r, H1. }
  destruct Hs as [?|[?|[Hpos Hs]]]; [done..|].
  assert (n' < Z.of_nat (length df)) by lia.
  destruct (train_test_split_Ok global df (Z.of_nat (length df) - n')
              (col <$> df) (Some Samples.RANDOM_STATE))
    as (a & b & -> & Hperm & Ha & Hb & _).
  - by rewrite length_fmap.
  - lia.
  - replace (Z.to_nat (Z.of_nat (length df) - n'))
      with (length df - Z.to_nat n')%nat by lia.
    replace (length df - (length df - Z.to_nat n'))%nat
      with (Z.to_nat n') by lia.
    done.
  - exists a, b. split_and!; [done..|lia].
Qed.

Lemma stratified_n_sample_Err global (df : list A) n col :
  ¬ sampleable df n col ->
  ∃ msg, Samples.stratified_n_sample global df n col = Err (ValueError msg).
Proof.
  unfold sampleable, Samples.stratified_n_sample.
  set (n' := Z.min n (Z.of_nat (length df))). intros Hs.
  rewrite !bool_decide_eq_false_2 by tauto.
  apply train_test_split_Err. intros [Hts Hstrat]. apply Hs.
  right. right. split; [lia|].
  replace (Z.to_nat (Z.of_nat (length df) - n'))
    with (length df - Z.to_nat n')%nat in Hstrat by lia.
  replace (length df - (length df - Z.to_nat n'))%nat
    with (Z.to_nat n') in Hstrat by lia.
  done.
Qed.

(** Every result of [stratified_n_sample] is a partition of the pool. *)
Lemma stratified_n_sample_partition global (df : list A) n col sample remainder :
  Samples.stratified_n_sample global df n col = Ok (sample, remainder) ->
  sample ++ remainder ≡ₚ df ∧
  Z.of_nat (length sample) = Z.min n (Z.of_nat (length df)).
Proof.
  intros Hr. destruct (decide (sampleable df n col)) as [Hs|Hs].
  - destruct (stratified_n_sample_Ok global df n col Hs)
      as (s & r & Hr' & Hperm & Hlen).
    rewrite Hr in Hr'. by simplify_eq.
  - destruct (stratified_n_sample_Err global df n col Hs) as [msg Hr'].
    rewrite Hr in Hr'. done.
Qed.
End Sampler.

(** ** The Sampler *)

(** A kept row for the examples: a closed PR of an eligible repository. *)
Definition row (i : Z) (a : string) (merged : bool) : KeptRow :=
  mkKeptRow
    (mkPullRequest i 1 a "alice" "closed"
       (if merged then Some "2024-01-01" else None) "")
    merged.

(** C2, as stated, fails: with three rows of one agent and a single row of
    another, a request for two rows raises instead of returning a pair. *)
Lemma stratified_n_sample_raises :
  Samples.stratified_n_sample (H := Lcg.generator) 0
    [row 1 "Devin" true; row 2 "Devin" true; row 3 "Devin" true;
     row 4 "Cursor" true] 2 Samples.agent
  = Err (ValueError "The least populated class in y has only 1 member").
Proof. reflexivity. Qed.

(** C2, amended.  Whenever [stratified_n_sample(pool, n, col)] returns a
    pair, sample and remainder together are exactly the pool as multisets
    of rows, they share no row when the rows of the pool are distinct, and
    the sample has [min(n, |pool|)] rows.  It returns when the clamped size
    is [0] or [|pool|], or when the split is proper and every stratum has at
    least two rows and neither side is smaller than the number of strata;
    on every other input it raises [ValueError]. *)
Theorem stratified_n_sample_partitions `{NumpyRandom} {A : Type}
    (global : rng) (pool : list A) (n : Z) (col : A -> string) :
  (∀ sample remainder,
     Samples.stratified_n_sample global pool n col = Ok (sample, remainder) ->
     sample ++ remainder ≡ₚ pool ∧
     Z.of_nat (length sample) = Z.min n (Z.of_nat (length pool)) ∧
     (NoDup pool -> ∀ x, x ∈ sample -> x ∉ remainder))
  ∧ (sampleable pool n col ->
     ∃ sample remainder,
       Samples.stratified_n_sample global pool n col = Ok (sample, remainder))
  ∧ (¬ sampleable pool n col ->
     ∃ msg,
       Samples.stratified_n_sample global pool n col = Err (ValueError msg)).
Proof.
  split_and!.
  - intros sample remainder Hr.
    destruct (stratified_n_sample_partition _ _ _ _ _ _ Hr) as [Hperm Hlen].
    split_and!; [done..|].
    intros Hnd. rewrite <- Hperm in Hnd.
    by apply NoDup_app in Hnd as (_ & Hdisj & _).
  - intros Hs.
    destruct (stratified_n_sample_Ok global pool n col Hs)
      as (s & r & Hr & _). eauto.
  - apply stratified_n_sample_Err.
Qed.

(** C3, as stated, fails: five rows of one agent and one row of another,
    three rows requested; the stratum of one row makes the call raise. *)
Lemma stratified_n_sample_small_stratum_raises :
  Samples.stratified_n_sample (H := Lcg.generator) 0
    [row 1 "Devin" false; row 2 "Devin" false; row 3 "Devin" false;
     row 4 "Devin" false; row 5 "Devin" false; row 6 "Copilot" false]
    3 Samples.agent
  = Err (ValueError "The least populated class in y has only 1 member").
Proof. reflexivity. Qed.

(** C3, amended.  For [0 < n < |pool|], [stratified_n_sample(pool, n, col)]
    returns a pair exactly when every stratum has at least two rows and
    both [n] and [|pool| - n] are at least the number of strata; a stratum
    with a single row makes it raise [ValueError]: there is no fallback. *)
Theorem stratified_n_sample_no_fallback `{NumpyRandom} {A : Type}
    (global : rng) (pool : list A) (n : Z) (col : A -> string) :
  0 < n < Z.of_nat (length pool) ->
  ((∃ sample remainder,
      Samples.stratified_n_sample global pool n col = Ok (sample, remainder))
   ↔ stratifiable (col <$> pool) (Z.to_nat n) (length pool - Z.to_nat n))
  ∧ (Exists (λ c, c < 2)%nat (class_counts (col <$> pool)) ->
     ∃ msg,
       Samples.stratified_n_sample global pool n col = Err (ValueError msg)).
Proof.
  intros Hn.
  assert (Hiff : sampleable pool n col
                 ↔ stratifiable (col <$> pool) (Z.to_nat n)
                                (length pool - Z.to_nat n)).
  { unfold sampleable. rewrite Z.min_l by lia. split.
    - intros [?|[?|[_ ?]]]; [lia..|done].
    - intros Hs. right. right. split; [lia|done]. }
  split.
  - rewrite <- Hiff. split.
    + intros (s & r & Hr).
      destruct (decide (sampleable pool n col)) as [|Hs]; [done|].
      destruct (stratified_n_sample_Err global pool n col Hs) as [msg Hr'].
      rewrite Hr in Hr'. done.
    + intros Hs.
      destruct (stratified_n_sample_Ok global pool n col Hs)
        as (s & r & Hr & _). eauto.
  - intros (c & Hin & Hlt)%Exists_exists.
    apply stratified_n_sample_Err. rewrite Hiff. intros (Hc & _).
    rewrite Forall_forall in Hc. specialize (Hc c Hin). lia.
Qed.

Lemma stratified_n_sample_no_fallback_witness :
  let pool := [row 1 "Devin" true; row 2 "Cursor" true;
               row 3 "Devin" true; row 4 "Cursor" true] in
  0 < 2 < Z.of_nat (length pool) ∧
  (((∃ sample remainder,
       Samples.stratified_n_sample (H := Lcg.generator) 0 pool 2 Samples.agent
       = Ok (sample, remainder))
    ↔ stratifiable (Samples.agent <$> pool) (Z.to_nat 2)
                   (length pool - Z.to_nat 2))
   ∧ (Exists (λ c, c < 2)%nat (class_counts (Samples.agent <$> pool)) ->
      ∃ msg,
        Samples.stratified_n_sample (H := Lcg.generator) 0 pool 2 Samples.agent
        = Err (ValueError msg))).
Proof.
  split.
  - simpl. lia.
  - apply (stratified_n_sample_no_fallback (H := Lcg.generator)). simpl. lia.
Defined.

Example stratified_n_sample_proper_split :
  Samples.stratified_n_sample (H := Lcg.generator) 0
    [row 1 "Devin" true; row 2 "Cursor" true;
     row 3 "Devin" true; row 4 "Cursor" true] 2 Samples.agent
  = Ok ([row 2 "Cursor" true; row 3 "Devin" true],
        [row 1 "Devin" true; row 4 "Cursor" true]).
Proof. reflexivity. Qed.

Lemma stratified_n_sample_ge `{NumpyRandom} {A : Type}
    (global : rng) (pool : list A) (n : Z) (col : A -> string) :
  Z.of_nat (length pool) ≤ n ->
  Samples.stratified_n_sample global pool n col = Ok (pool, []).
Proof.
  intros Hn. unfold Samples.stratified_n_sample.
  rewrite Z.min_r by lia.
  case_bool_decide as H0.
  - destruct pool; [done|]. simpl in H0. lia.
  - by rewrite bool_decide_eq_true_2.
Qed.

(** C7.  Boundary behaviour of the sampler: a request for no row returns
    the empty sample and the whole pool, a request for at least [|pool|]
    rows returns the whole pool and an empty remainder, and a positive
    request on an empty pool returns the empty pool as the sample instead
    of raising. *)
Theorem stratified_n_sample_boundary `{NumpyRandom} {A : Type}
    (global : rng) (pool : list A) (col : A -> string) :
  Samples.stratified_n_sample global pool 0 col = Ok ([], pool)
  ∧ Samples.stratified_n_sample global pool (Z.of_nat (length pool)) col
    = Ok (pool, [])
  ∧ (∀ n, Z.of_nat (length pool) ≤ n ->
          Samples.stratified_n_sample global pool n col = Ok (pool, []))
  ∧ (∀ n, 0 < n -> Samples.stratified_n_sample global [] n col = Ok ([], [])).
Proof.
  split_and!.
  - unfold Samples.stratified_n_sample.
    rewrite Z.min_l by lia. by rewrite bool_decide_eq_true_2.
  - apply stratified_n_sample_ge. lia.
  - intros n. apply stratified_n_sample_ge.
  - intros n Hn. unfold Samples.stratified_n_sample. simpl.
    rewrite Z.min_r by lia. by rewrite bool_decide_eq_true_2.
Qed.

(** C8.  The pipeline is deterministic under the fixed seed: whatever the
    state of numpy's global generator in the two runs, every call to
    [stratified_n_sample] returns the same result on the same arguments,
    the pipeline computes the same four samples on the same input tables,
    and the four CSV files have the same contents. *)
Theorem sampling_deterministic `{NumpyRandom} (global1 global2 : rng)
    (repos : list Repository) (prs : list PullRequest)
    (comments : list Comment)
    (to_csv : list (Z * string * string) -> string) :
  (∀ (A : Type) (df : list A) (n : Z) (col : A -> string),
     Samples.stratified_n_sample global1 df n col
     = Samples.stratified_n_sample global2 df n col)
  ∧ Samples.main global1 repos prs comments
    = Samples.main global2 repos prs comments
  ∧ (∀ o1 o2,
       Samples.main global1 repos prs comments = Ok o1 ->
       Samples.main global2 repos prs comments = Ok o2 ->
       Samples.csv_files to_csv o1 = Samples.csv_files to_csv o2).
Proof.
  assert (Hcall : ∀ (A : Type) (df : list A) (n : Z) (col : A -> string),
     Samples.stratified_n_sample global1 df n col
     = Samples.stratified_n_sample global2 df n col).
  { reflexivity. }
  assert (Hmain : Samples.main global1 repos prs comments
                  = Samples.main global2 repos prs comments).
  { reflexivity. }
  split_and!; [done..|].
  intros o1 o2 H1 H2. rewrite Hmain, H2 in H1. by simplify_eq.
Qed.

(** Without a seed the split reads numpy's global generator, and its
    result then depends on that state: the seed is what C8 rests on. *)
Example unseeded_split_depends_on_global :
  train_test_split (H := Lcg.generator) 0
    [row 1 "Devin" true; row 2 "Cursor" true;
     row 3 "Devin" true; row 4 "Cursor" true] 2
    ["Devin"; "Cursor"; "Devin"; "Cursor"] None
  = Ok ([row 2 "Cursor" true; row 3 "Devin" true],
        [row 1 "Devin" true; row 4 "Cursor" true])
  ∧ train_test_split (H := Lcg.generator) 1
    [row 1 "Devin" true; row 2 "Cursor" true;
     row 3 "Devin" true; row 4 "Cursor" true] 2
    ["Devin"; "Cursor"; "Devin"; "Cursor"] None
  = Ok ([row 1 "Devin" true; row 4 "Cursor" true],
        [row 2 "Cursor" true; row 3 "Devin" true]).
Proof. split; reflexivity. Qed.

(** ** The pipeline of [samples.py] *)

Lemma NoDup_fmap_filter {A B : Type} (f : A -> B) (P : A -> Prop)
    `{!∀ x, Decision (P x)} (l : list A) :
  NoDup (f <$> l) -> NoDup (f <$> filter P l).
Proof.
  induction l as [|x l IH]; csimpl; [done|].
  rewrite NoDup_cons. intros [Hx Hnd].
  rewrite filter_cons. destruct (decide (P x)); csimpl; [|by apply IH].
  apply NoDup_cons. split; [|by apply IH].
  intros (y & Hy & [_ Hin]%list_elem_of_filter)%list_elem_of_fmap.
  apply Hx. rewrite Hy. by apply list_elem_of_fmap_2.
Qed.

Lemma Samples_kept_ids_NoDup repos prs human :
  NoDup (p_id <$> prs) ->
  NoDup ((λ k, p_id (k_pr k)) <$> Samples.kept repos prs human).
Proof.
  intros Hnd. unfold Samples.kept, Samples.selected.
  rewrite <- list_fmap_compose.
  by do 2 apply NoDup_fmap_filter.
Qed.

(** A second draw from the remainder of a first draw shares nothing with
    the first sample. *)
Lemma two_stage_disjoint {A B : Type} (f : A -> B)
    (pool s rem m rest : list A) :
  NoDup (f <$> pool) -> s ++ rem ≡ₚ pool -> m ++ rest ≡ₚ rem ->
  ∀ x, x ∈ m -> f x ∉ f <$> s.
Proof.
  intros Hnd Hs Hm x Hx Hin.
  rewrite <- Hs, <- Hm, fmap_app in Hnd.
  apply NoDup_app in Hnd as (_ & Hdisj & _).
  apply (Hdisj _ Hin). apply list_elem_of_fmap_2.
  apply elem_of_app. by left.
Qed.

Lemma Samples_main_inv `{NumpyRandom} global repos prs comments o :
  Samples.main global repos prs comments = Ok o ->
  ∃ human reject_remaining accept_remaining rest_rejected rest_accepted,
    Samples.human_commented_ids comments = Ok human ∧
    Samples.stratified_n_sample global
      (Samples.combined_rejected repos prs human)
      Samples.VALIDATE_AGREEMENT_SAMPLE Samples.agent
    = Ok (Samples.sample_check_rejected o, reject_remaining) ∧
    Samples.stratified_n_sample global
      (Samples.combined_accepted repos prs human)
      Samples.VALIDATE_AGREEMENT_SAMPLE Samples.agent
    = Ok (Samples.sample_check_accepts o, accept_remaining) ∧
    Samples.stratified_n_sample global reject_remaining
      (Samples.REJECT_SAMPLE_SIZE repos prs human) Samples.agent
    = Ok (Samples.manual_check_rejected o, rest_rejected) ∧
    Samples.stratified_n_sample global accept_remaining
      (Samples.ACCEPT_SAMPLE_SIZE repos prs human) Samples.agent
    = Ok (Samples.manual_check_accepted o, rest_accepted).
Proof.
  unfold Samples.main. intros Hmain.
  destruct (Samples.human_commented_ids comments) as [human|] eqn:Eh;
    simpl in Hmain; [|done].
  destruct (Samples.stratified_n_sample global
              (Samples.combined_rejected repos prs human) _ _)
    as [[sr rr]|] eqn:E1; simpl in Hmain; [|done].
  destruct (Samples.stratified_n_sample global
              (Samples.combined_accepted repos prs human) _ _)
    as [[sa ar]|] eqn:E2; simpl in Hmain; [|done].
  destruct (Samples.stratified_n_sample global rr _ _)
    as [[mr rest_r]|] eqn:E3; simpl in Hmain; [|done].
  destruct (Samples.stratified_n_sample global ar _ _)
    as [[ma rest_a]|] eqn:E4; simpl in Hmain; [|done].
  inversion Hmain; subst o; simpl.
  exists human, rr, ar, rest_r, rest_a. done.
Qed.

(** What C6 says of the outputs [o] of a run.  The manual-check samples
    avoid the ids of the agreement-check samples.  The remaining pool of
    each partition is the pool without the agreement-check sample: sample
    and remaining pool together are the rows of the pool, each once, the
    sample has min(30, |pool|) rows and no id of the remaining pool is an
    id of the sample.  The manual-check sample is drawn from that remaining
    pool: it is part of it, it has min(target, |remaining|) rows, and it is
    the entire remaining pool when the target is at least its size. *)
Definition disjoint_and_clamped `{NumpyRandom} (global : rng)
    (repos : list Repository) (prs : list PullRequest)
    (comments : list Comment) (o : Samples.Outputs) : Prop :=
  (∀ k, k ∈ Samples.manual_check_accepted o ->
        p_id (k_pr k)
        ∉ (λ k, p_id (k_pr k)) <$> Samples.sample_check_accepts o)
  ∧ (∀ k, k ∈ Samples.manual_check_rejected o ->
          p_id (k_pr k)
          ∉ (λ k, p_id (k_pr k)) <$> Samples.sample_check_rejected o)
  ∧ ∃ human accept_remaining reject_remaining,
      Samples.human_commented_ids comments = Ok human ∧
      Samples.stratified_n_sample global
        (Samples.combined_accepted repos prs human)
        Samples.VALIDATE_AGREEMENT_SAMPLE Samples.agent
      = Ok (Samples.sample_check_accepts o, accept_remaining) ∧
      Samples.stratified_n_sample global
        (Samples.combined_rejected repos prs human)
        Samples.VALIDATE_AGREEMENT_SAMPLE Samples.agent
      = Ok (Samples.sample_check_rejected o, reject_remaining) ∧
      Samples.manual_check_accepted o ⊆ accept_remaining ∧
      Samples.manual_check_rejected o ⊆ reject_remaining ∧
      (Z.of_nat (length accept_remaining)
         ≤ Samples.ACCEPT_SAMPLE_SIZE repos prs human ->
       Samples.manual_check_accepted o = accept_remaining) ∧
      (Z.of_nat (length reject_remaining)
         ≤ Samples.REJECT_SAMPLE_SIZE repos prs human ->
       Samples.manual_check_rejected o = reject_remaining) ∧
      Samples.sample_check_accepts o ++ accept_remaining
        ≡ₚ Samples.combined_accepted repos prs human ∧
      Samples.sample_check_rejected o ++ reject_remaining
        ≡ₚ Samples.combined_rejected repos prs human ∧
      Z.of_nat (length (Samples.sample_check_accepts o))
        = Z.min Samples.VALIDATE_AGREEMENT_SAMPLE
            (Z.of_nat (length (Samples.combined_accepted repos prs human))) ∧
      Z.of_nat (length (Samples.sample_check_rejected o))
        = Z.min Samples.VALIDATE_AGREEMENT_SAMPLE
            (Z.of_nat (length (Samples.combined_rejected repos prs human))) ∧
      (∀ k, k ∈ accept_remaining ->
            p_id (k_pr k)
            ∉ (λ k, p_id (k_pr k)) <$> Samples.sample_check_accepts o) ∧
      (∀ k, k ∈ reject_remaining ->
            p_id (k_pr k)
            ∉ (λ k, p_id (k_pr k)) <$> Samples.sample_check_rejected o) ∧
      Z.of_nat (length (Samples.manual_check_accepted o))
        = Z.min (Samples.ACCEPT_SAMPLE_SIZE repos prs human)
            (Z.of_nat (length accept_remaining)) ∧
      Z.of_nat (length (Samples.manual_check_rejected o))
        = Z.min (Samples.REJECT_SAMPLE_SIZE repos prs human)
            (Z.of_nat (length reject_remaining)).

(** C6.  The agreement-check and manual-check samples of each partition
    are disjoint: the manual-check sample is drawn from the remainder left
    by the agreement-check sample, so, PR ids being unique, no PR id of
    [manual_check_accepted] is in [sample_check_accepts] and none of
    [manual_check_rejected] is in [sample_check_rejected]; and when the
    target size derived from Table 1 is at least the size of the remaining
    pool, the manual-check sample is the entire remaining pool. *)
Theorem manual_and_agreement_samples_disjoint `{NumpyRandom} (global : rng)
    (repos : list Repository) (prs : list PullRequest)
    (comments : list Comment) (o : Samples.Outputs) :
  NoDup (p_id <$> prs) ->
  Samples.main global repos prs comments = Ok o ->
  disjoint_and_clamped global repos prs comments o.
Proof.
  intros Hnd Hmain. unfold disjoint_and_clamped.
  destruct (Samples_main_inv _ _ _ _ _ Hmain)
    as (human & rr & ar & rest_r & rest_a & Eh & E1 & E2 & E3 & E4).
  destruct (stratified_n_sample_partition _ _ _ _ _ _ E1) as [P1 L1].
  destruct (stratified_n_sample_partition _ _ _ _ _ _ E2) as [P2 L2].
  destruct (stratified_n_sample_partition _ _ _ _ _ _ E3) as [P3 L3].
  destruct (stratified_n_sample_partition _ _ _ _ _ _ E4) as [P4 L4].
  pose proof (Samples_kept_ids_NoDup repos prs human Hnd) as Hk.
  assert (Ha : NoDup ((λ k, p_id (k_pr k))
                        <$> Samples.combined_accepted repos prs human))
    by (by apply NoDup_fmap_filter).
  assert (Hr : NoDup ((λ k, p_id (k_pr k))
                        <$> Samples.combined_rejected repos prs human))
    by (by apply NoDup_fmap_filter).
  split; [|split].
  - eapply two_stage_disjoint; [exact Ha|exact P2|exact P4].
  - eapply two_stage_disjoint; [exact Hr|exact P1|exact P3].
  - exists human, ar, rr.
    repeat match goal with |- _ ∧ _ => split end.
    + exact Eh.
    + exact E2.
    + exact E1.
    + intros k Hin. rewrite <- P4. apply elem_of_app. by left.
    + intros k Hin. rewrite <- P3. apply elem_of_app. by left.
    + intros Hle. rewrite stratified_n_sample_ge in E4 by done.
      by simplify_eq.
    + intros Hle. rewrite stratified_n_sample_ge in E3 by done.
      by simplify_eq.
    + exact P2.
    + exact P1.
    + exact L2.
    + exact L1.
    + apply (two_stage_disjoint _ _ _ ar ar [] Ha P2).
      by rewrite app_nil_r.
    + apply (two_stage_disjoint _ _ _ rr rr [] Hr P1).
      by rewrite app_nil_r.
    + exact L4.
    + exact L3.
Qed.

(** An input for the sampler: one eligible repository; two merged and two
    unmerged PRs of Devin, thirty merged and thirty unmerged PRs of an
    agent outside the roster. *)
Fixpoint gen_prs (start : Z) (count : nat) (a : string)
    (merged_at : option string) : list PullRequest :=
  match count with
  | O => []
  | S count' =>
      mkPullRequest start 1 a "alice" "closed" merged_at ""
        :: gen_prs (start + 1) count' a merged_at
  end.

Definition sampling_prs : list PullRequest :=
  gen_prs 1 2 "Devin" (Some "2024-01-01")
  ++ gen_prs 3 30 "Gemini" (Some "2024-01-01")
  ++ gen_prs 33 2 "Devin" None
  ++ gen_prs 35 30 "Gemini" None.

Definition sampling_outputs : Samples.Outputs :=
  match Samples.main (H := Lcg.generator) 0 scenario_repos sampling_prs [] with
  | Ok o => o
  | Err _ => Samples.mkOutputs [] [] [] []
  end.

Example sampling_outputs_sizes :
  length (Samples.sample_check_accepts sampling_outputs) = 30%nat ∧
  length (Samples.sample_check_rejected sampling_outputs) = 30%nat ∧
  (λ k, p_id (k_pr k)) <$> Samples.manual_check_accepted sampling_outputs
    = [29; 2] ∧
  (λ k, p_id (k_pr k)) <$> Samples.manual_check_rejected sampling_outputs
    = [61; 34].
Proof. by vm_compute. Qed.

Lemma manual_and_agreement_samples_disjoint_witness :
  NoDup (p_id <$> sampling_prs) ∧
  Samples.main (H := Lcg.generator) 0 scenario_repos sampling_prs []
    = Ok sampling_outputs ∧
  disjoint_and_clamped (H := Lcg.generator) 0 scenario_repos sampling_prs []
    sampling_outputs.
Proof.
  assert (Hnd : NoDup (p_id <$> sampling_prs)).
  { refine (bool_decide_unpack _ _). vm_compute. exact I. }
  assert (Hmain : Samples.main (H := Lcg.generator) 0 scenario_repos
                    sampling_prs [] = Ok sampling_outputs).
  { vm_compute. reflexivity. }
  split_and!; [exact Hnd|exact Hmain|].
  exact (manual_and_agreement_samples_disjoint (H := Lcg.generator) 0
           scenario_repos sampling_prs [] sampling_outputs Hnd Hmain).
Defined.

(** ** Sample sizes and agents outside the roster *)

Lemma length_filter_and_le {A : Type} (P Q : A -> Prop)
    `{!∀ x, Decision (P x)} `{!∀ x, Decision (Q x)} (l : list A) :
  (length (filter (λ x, P x ∧ Q x) l) ≤ length (filter Q l))%nat.
Proof. rewrite <- list_filter_filter. apply length_filter. Qed.

Lemma length_filter_split {A : Type} (P Q : A -> Prop)
    `{!∀ x, Decision (P x)} `{!∀ x, Decision (Q x)} (l : list A) :
  length (filter P l)
  = (length (filter (λ x, P x ∧ Q x) l)
     + length (filter (λ x, P x ∧ ¬ Q x) l))%nat.
Proof.
  rewrite <- length_filter_or by naive_solver.
  f_equal. apply list_filter_iff. intros x.
  destruct (decide (Q x)); naive_solver.
Qed.

(** A sample longer than the number of its rows passing a test holds a
    row that fails it. *)
Lemma filter_pigeonhole {A : Type} (P : A -> Prop) `{!∀ x, Decision (P x)}
    (l : list A) :
  (length (filter P l) < length l)%nat -> ∃ x, x ∈ l ∧ ¬ P x.
Proof.
  induction l as [|x l IH]; simpl; [lia|].
  rewrite filter_cons. destruct (decide (P x)); simpl; intros Hlt.
  - destruct IH as (y & Hy & HP); [lia|]. exists y. split; [by right|done].
  - exists x. split; [by left|done].
Qed.

Lemma Samples_sample_sizes repos prs human :
  Samples.ACCEPT_SAMPLE_SIZE repos prs human
  = Z.of_nat (length (filter (λ k, p_agent (k_pr k) ∈ Samples.AGENTS)
                             (Samples.combined_accepted repos prs human)))
  ∧ Samples.REJECT_SAMPLE_SIZE repos prs human
  = Z.of_nat (length (filter (λ k, p_agent (k_pr k) ∈ Samples.AGENTS)
                             (Samples.combined_rejected repos prs human))).
Proof.
  unfold Samples.ACCEPT_SAMPLE_SIZE, Samples.REJECT_SAMPLE_SIZE,
    Samples.combined_accepted, Samples.combined_rejected.
  rewrite Samples_table1_eq. rewrite !list_filter_filter.
  pose proof (roster_table_total Samples.AGENTS
                (Samples.kept repos prs human) AGENTS_NoDup) as Ht.
  pose proof (roster_table_merged Samples.AGENTS
                (Samples.kept repos prs human) AGENTS_NoDup) as Hm.
  split; [done|].
  unfold roster_table in *. rewrite column_sum_rejected, Ht, Hm.
  rewrite (length_filter_split (λ k, p_agent (k_pr k) ∈ Samples.AGENTS)
             (λ k, is_merged k = true)). lia.
Qed.

Section NonRoster.
Context `{NumpyRandom}.

Lemma stratified_n_sample_remainder_class {A : Type} (global : rng)
    (df : list A) (n : Z) (col : A -> string) (i : nat) (c : string) :
  0 < n < Z.of_nat (length df) ->
  stratifiable (col <$> df) (Z.to_nat n) (length df - Z.to_nat n) ->
  group_keys (col <$> df) !! i = Some c ->
  (length (filter (λ v, v = c) (col <$> df)) * Z.to_nat n + length df
   < length df * length (filter (λ v, v = c) (col <$> df)))%nat ->
  ∃ sample remainder x,
    Samples.stratified_n_sample global df n col = Ok (sample, remainder) ∧
    sample ++ remainder ≡ₚ df ∧
    length sample = Z.to_nat n ∧
    x ∈ remainder ∧ col x = c.
Proof.
  intros Hn Hs Hi Hlt. unfold Samples.stratified_n_sample.
  rewrite Z.min_l by lia. rewrite !bool_decide_eq_false_2 by lia.
  assert (Hts : Z.to_nat (Z.of_nat (length df) - n)
                = (length df - Z.to_nat n)%nat) by lia.
  assert (Htr : (length df - (length df - Z.to_nat n))%nat = Z.to_nat n)
    by lia.
  destruct (train_test_split_Ok global df (Z.of_nat (length df) - n)
              (col <$> df) (Some Samples.RANDOM_STATE))
    as (a & b & -> & Hperm & Ha & Hb & Hcls).
  - by rewrite length_fmap.
  - lia.
  - by rewrite Hts, Htr.
  - destruct (Hcls i c Hi) as (j & x & Hx & Hj & Hc).
    { by rewrite Hts, Htr. }
    exists a, b, x. split_and!; [done..|lia|done|].
    rewrite list_lookup_fmap, Hj in Hc. by simplify_eq/=.
Qed.

Lemma Samples_main_intro global repos prs comments human sr rr sa ar mr xr ma xa :
  Samples.human_commented_ids comments = Ok human ->
  Samples.stratified_n_sample global
    (Samples.combined_rejected repos prs human)
    Samples.VALIDATE_AGREEMENT_SAMPLE Samples.agent = Ok (sr, rr) ->
  Samples.stratified_n_sample global
    (Samples.combined_accepted repos prs human)
    Samples.VALIDATE_AGREEMENT_SAMPLE Samples.agent = Ok (sa, ar) ->
  Samples.stratified_n_sample global rr
    (Samples.REJECT_SAMPLE_SIZE repos prs human) Samples.agent = Ok (mr, xr) ->
  Samples.stratified_n_sample global ar
    (Samples.ACCEPT_SAMPLE_SIZE repos prs human) Samples.agent = Ok (ma, xa) ->
  Samples.main global repos prs comments = Ok (Samples.mkOutputs sr sa mr ma).
Proof.
  intros Eh E1 E2 E3 E4. unfold Samples.main.
  rewrite Eh. simpl. rewrite E1. simpl. rewrite E2. simpl.
  rewrite E3. simpl. rewrite E4. done.
Qed.

(** A pool of two rows of a roster agent and thirty rows of another
    agent [c]: the agreement draw of thirty rows and the manual draw of
    two rows from its remainder both hold a row of [c]. *)
Lemma two_draws_hold_class (global : rng) (pool : list KeptRow) (target : Z)
    (c : string) :
  length pool = 32%nat ->
  stratifiable (Samples.agent <$> pool) 30 2 ->
  group_keys (Samples.agent <$> pool) !! 1%nat = Some c ->
  length (filter (λ v, v = c) (Samples.agent <$> pool)) = 30%nat ->
  length (filter (λ k, Samples.agent k ≠ c) pool) = 2%nat ->
  target = 2 ->
  ∃ s r,
    Samples.stratified_n_sample global pool
      Samples.VALIDATE_AGREEMENT_SAMPLE Samples.agent = Ok (s, r) ∧
    Samples.stratified_n_sample global r target Samples.agent = Ok (r, []) ∧
    (∃ k, k ∈ s ∧ Samples.agent k = c) ∧
    (∃ k, k ∈ r ∧ Samples.agent k = c).
Proof.
  intros Hlen Hs Hi Hcnt Hother ->.
  destruct (stratified_n_sample_remainder_class global pool
              Samples.VALIDATE_AGREEMENT_SAMPLE Samples.agent 1 c)
    as (s & r & x & E & Hperm & Hls & Hx & Hxc).
  - rewrite Hlen. unfold Samples.VALIDATE_AGREEMENT_SAMPLE. lia.
  - rewrite Hlen. exact Hs.
  - exact Hi.
  - rewrite Hcnt, Hlen. unfold Samples.VALIDATE_AGREEMENT_SAMPLE. lia.
  - exists s, r. split_and!.
    + done.
    + apply stratified_n_sample_ge.
      apply Permutation_length in Hperm.
      rewrite length_app, Hlen, Hls in Hperm.
      unfold Samples.VALIDATE_AGREEMENT_SAMPLE in Hperm. lia.
    + destruct (filter_pigeonhole (λ k, Samples.agent k ≠ c) s)
        as (k & Hk & Hkc).
      * assert (length (filter (λ k, Samples.agent k ≠ c) s) ≤ 2)%nat.
        { rewrite <- Hother, <- Hperm, filter_app, length_app. lia. }
        rewrite Hls. unfold Samples.VALIDATE_AGREEMENT_SAMPLE. lia.
      * exists k. split; [done|].
        by destruct (decide (Samples.agent k = c)).
    + by exists x.
Qed.
End NonRoster.

(** The accepted and rejected pools of the sampling input. *)
Lemma sampling_pools_facts :
  let accepted := Samples.combined_accepted scenario_repos sampling_prs ∅ in
  let rejected := Samples.combined_rejected scenario_repos sampling_prs ∅ in
  (length accepted = 32%nat ∧
   stratifiable (Samples.agent <$> accepted) 30 2 ∧
   group_keys (Samples.agent <$> accepted) !! 1%nat = Some "Gemini" ∧
   length (filter (λ v, v = "Gemini") (Samples.agent <$> accepted)) = 30%nat ∧
   length (filter (λ k, Samples.agent k ≠ "Gemini") accepted) = 2%nat ∧
   Samples.ACCEPT_SAMPLE_SIZE scenario_repos sampling_prs ∅ = 2) ∧
  (length rejected = 32%nat ∧
   stratifiable (Samples.agent <$> rejected) 30 2 ∧
   group_keys (Samples.agent <$> rejected) !! 1%nat = Some "Gemini" ∧
   length (filter (λ v, v = "Gemini") (Samples.agent <$> rejected)) = 30%nat ∧
   length (filter (λ k, Samples.agent k ≠ "Gemini") rejected) = 2%nat ∧
   Samples.REJECT_SAMPLE_SIZE scenario_repos sampling_prs ∅ = 2).
Proof.
  split; split_and!;
    first [ refine (bool_decide_unpack _ _); vm_compute; exact I
          | vm_compute; reflexivity ].
Qed.

(** C10.  The manual-check target sizes count the kept PRs of roster
    agents only, while the pools keep the PRs of every agent:
    [ACCEPT_SAMPLE_SIZE] is the number of accepted PRs with a roster agent,
    at most [|combined_accepted|]; [REJECT_SAMPLE_SIZE] is the number of
    rejected PRs with a roster agent, at most [|combined_rejected|]; and
    there is an input on which each of the four output samples holds a
    kept PR whose agent is outside the roster. *)
Theorem sample_sizes_count_roster_only `{NumpyRandom} (global : rng) :
  (∀ repos prs human,
     Samples.ACCEPT_SAMPLE_SIZE repos prs human
     = Z.of_nat (length (filter (λ k, p_agent (k_pr k) ∈ Samples.AGENTS)
                                (Samples.combined_accepted repos prs human)))
     ∧ Samples.REJECT_SAMPLE_SIZE repos prs human
     = Z.of_nat (length (filter (λ k, p_agent (k_pr k) ∈ Samples.AGENTS)
                                (Samples.combined_rejected repos prs human)))
     ∧ Samples.ACCEPT_SAMPLE_SIZE repos prs human
       ≤ Z.of_nat (length (Samples.combined_accepted repos prs human))
     ∧ Samples.REJECT_SAMPLE_SIZE repos prs human
       ≤ Z.of_nat (length (Samples.combined_rejected repos prs human)))
  ∧ ∃ repos prs comments o,
      Samples.main global repos prs comments = Ok o ∧
      (∃ k, k ∈ Samples.sample_check_rejected o
            ∧ Samples.agent k ∉ Samples.AGENTS) ∧
      (∃ k, k ∈ Samples.sample_check_accepts o
            ∧ Samples.agent k ∉ Samples.AGENTS) ∧
      (∃ k, k ∈ Samples.manual_check_rejected o
            ∧ Samples.agent k ∉ Samples.AGENTS) ∧
      (∃ k, k ∈ Samples.manual_check_accepted o
            ∧ Samples.agent k ∉ Samples.AGENTS).
Proof.
  split.
  - intros repos prs human.
    destruct (Samples_sample_sizes repos prs human) as [Ha Hr].
    split_and!; [done..| |].
    + rewrite Ha. apply inj_le, length_filter.
    + rewrite Hr. apply inj_le, length_filter.
  - destruct sampling_pools_facts
      as [(La & Sa & Ka & Ca & Oa & Ta) (Lr & Sr & Kr & Cr & Or & Tr)].
    destruct (two_draws_hold_class global _ _ "Gemini" La Sa Ka Ca Oa Ta)
      as (sa & ar & Ea1 & Ea2 & (ka1 & Hka1 & Aa1) & (ka2 & Hka2 & Aa2)).
    destruct (two_draws_hold_class global _ _ "Gemini" Lr Sr Kr Cr Or Tr)
      as (sr & rr & Er1 & Er2 & (kr1 & Hkr1 & Ar1) & (kr2 & Hkr2 & Ar2)).
    exists scenario_repos, sampling_prs, [], (Samples.mkOutputs sr sa rr ar).
    assert (Hout : "Gemini" ∉ Samples.AGENTS).
    { refine (bool_decide_unpack _ _). vm_compute. exact I. }
    split_and!.
    + eapply (Samples_main_intro global scenario_repos sampling_prs nil ∅).
      * reflexivity.
      * exact Er1.
      * exact Ea1.
      * rewrite Tr. exact Er2.
      * rewrite Ta. exact Ea2.
    + exists kr1. rewrite Ar1. split; [exact Hkr1|exact Hout].
    + exists ka1. rewrite Aa1. split; [exact Hka1|exact Hout].
    + exists kr2. rewrite Ar2. split; [exact Hkr2|exact Hout].
    + exists ka2. rewrite Aa2. split; [exact Hka2|exact Hout].
Qed.

(** * The rest of [script/table1.py]: what [main] prints *)
Module Table1Report.

(** [sorted(ids)] for a set of integers: its elements in ascending order. *)
Definition sorted (ids : gset Z) : list Z := merge_sort Z.le (elements ids).

(** The numbers and tables [main] prints after the tables are loaded, in
    the order of the [print] calls. *)
Record Report := mkReport {
  repos_with_stars : nat;         (* [len(repo_ids)] *)
  selected_count : nat;           (* [len(selected_ids)] *)
  bot_assigned_count : nat;       (* [len(bot_assigned)] *)
  excluded_count : nat;           (* [len(excluded_ids)] *)
  kept_count : nat;               (* [len(kept_ids)] *)
  printed_table1 : list TableRow; (* [table1.to_string(index=False)] *)
  TOTAL : Z * Z * Z;              (* total_total, total_merged, total_rejected *)
  sample_excluded_ids : list Z;   (* [sorted(excluded_ids)[:10]] *)
  sample_kept_ids : list Z        (* [sorted(kept_ids)[:10]] *)
}.

Definition report (repos : list Repository) (prs : list PullRequest)
    (comments : list Comment) : Report :=
  mkReport
    (size (Table1.repo_ids repos))
    (size (Table1.selected_ids repos prs))
    (length (Table1.bot_assigned repos prs))
    (size (Table1.excluded_ids repos prs comments))
    (size (Table1.kept_ids repos prs comments))
    (Table1.table1 repos prs comments)
    (Table1.total_total repos prs comments,
     Table1.total_merged repos prs comments,
     Table1.total_rejected repos prs comments)
    (take 10 (sorted (Table1.excluded_ids repos prs comments)))
    (take 10 (sorted (Table1.kept_ids repos prs comments))).

End Table1Report.

(** ** The printed counts *)

Lemma size_list_to_set_le (l : list Z) :
  (size (list_to_set l : gset Z) ≤ length l)%nat.
Proof.
  induction l as [|x l IH].
  - rewrite list_to_set_nil, size_empty. done.
  - rewrite list_to_set_cons, size_union_alt, size_singleton. simpl.
    assert (size (list_to_set l ∖ {[x]} : gset Z) ≤ size (list_to_set l : gset Z))%nat.
    { apply subseteq_size. set_solver. }
    lia.
Qed.

Lemma Table1_excluded_subseteq_selected repos prs comments :
  Table1.excluded_ids repos prs comments ⊆ Table1.selected_ids repos prs.
Proof.
  intros p. unfold Table1.excluded_ids, Table1.excluded, Table1.bot_assigned,
    Table1.selected_ids.
  rewrite !elem_of_list_to_set, !list_elem_of_fmap.
  intros (pr & -> & Hin). exists pr. split; [done|].
  by apply list_elem_of_filter in Hin as [_ [_ ?]%list_elem_of_filter].
Qed.

(** X1.  The counts printed by [main] add up: the kept count plus the
    excluded count is the count of selected ids, and no count of ids
    exceeds the number of rows it was taken from. *)
Theorem report_counts_add_up
    (repos : list Repository) (prs : list PullRequest)
    (comments : list Comment) :
  let r := Table1Report.report repos prs comments in
  (Table1Report.kept_count r + Table1Report.excluded_count r
   = Table1Report.selected_count r)%nat
  ∧ (Table1Report.excluded_count r ≤ Table1Report.bot_assigned_count r)%nat
  ∧ (Table1Report.selected_count r ≤ length prs)%nat
  ∧ (Table1Report.repos_with_stars r ≤ length repos)%nat.
Proof.
  simpl. unfold Table1.kept_ids.
  pose proof (Table1_excluded_subseteq_selected repos prs comments) as Hsub.
  split_and!.
  - rewrite size_difference by done. apply subseteq_size in Hsub. lia.
  - unfold Table1.excluded_ids. etrans; [apply size_list_to_set_le|].
    rewrite length_fmap. apply length_filter.
  - unfold Table1.selected_ids. etrans; [apply size_list_to_set_le|].
    rewrite length_fmap. apply length_filter.
  - unfold Table1.repo_ids. etrans; [apply size_list_to_set_le|].
    rewrite length_fmap. apply length_filter.
Qed.

(** ** How [kept] depends on the comments *)

Lemma filter_sublist_mono {A : Type} (P Q : A -> Prop)
    `{!∀ x, Decision (P x)} `{!∀ x, Decision (Q x)} (l : list A) :
  (∀ x, P x -> Q x) -> filter P l `sublist_of` filter Q l.
Proof.
  intros HPQ. induction l as [|x l IH]; [done|].
  rewrite !filter_cons.
  destruct (decide (P x)), (decide (Q x)); try (exfalso; naive_solver).
  - by apply sublist_skip.
  - by apply sublist_cons.
  - done.
Qed.

Lemma Table1_kept_ext repos prs comments comments' :
  Table1.user_commented_pr_ids comments
  = Table1.user_commented_pr_ids comments' ->
  Table1.kept repos prs comments = Table1.kept repos prs comments'.
Proof.
  intros Heq. unfold Table1.kept, Table1.excluded_ids, Table1.excluded.
  by rewrite Heq.
Qed.

Lemma Table1_user_commented_app comments extra :
  Table1.user_commented_pr_ids (comments ++ extra)
  = Table1.user_commented_pr_ids comments
    ∪ Table1.user_commented_pr_ids extra.
Proof.
  apply set_eq. intros p.
  rewrite elem_of_union, !Table1_user_commented_pr_ids_spec.
  setoid_rewrite elem_of_app. naive_solver.
Qed.

(** X2.  On comment tables in which every comment names its PR, in
    [table1.py] the kept PRs depend on the comments only through the PR
    ids named by a ["User"] comment: appending comments never removes a
    kept PR (the kept rows stay, in order), appending comments that are
    not typed ["User"] changes nothing, and neither does reordering the
    comments.  The tables are restricted to those without a null [pr_id],
    before and after the appending: a null in the column makes pandas hold
    every id of the column as a 64-bit float, which is exact below 2^53
    only, so that an appended null could change the ids already there. *)
Theorem kept_grows_with_user_comments
    (repos : list Repository) (prs : list PullRequest)
    (comments extra : list Comment) :
  Forall (λ c, c_pr_id c ≠ None) (comments ++ extra) ->
  Table1.kept repos prs comments
    `sublist_of` Table1.kept repos prs (comments ++ extra)
  ∧ (Forall (λ c, c_user_type c ≠ "User") extra ->
     Table1.kept repos prs (comments ++ extra)
     = Table1.kept repos prs comments)
  ∧ (∀ comments', comments ≡ₚ comments' ->
     Table1.kept repos prs comments' = Table1.kept repos prs comments).
Proof.
  intros _. split_and!.
  - unfold Table1.kept. apply fmap_sublist, filter_sublist_mono.
    intros p Hp Hin. apply Hp. revert Hin.
    unfold Table1.excluded_ids, Table1.excluded.
    rewrite !elem_of_list_to_set, !list_elem_of_fmap.
    intros (pr & -> & [Hn Hb]%list_elem_of_filter).
    exists pr. split; [done|]. apply list_elem_of_filter. split; [|done].
    intros Hc. apply Hn. rewrite Table1_user_commented_app.
    apply elem_of_union. by left.
  - intros Hextra. apply Table1_kept_ext.
    rewrite Table1_user_commented_app.
    assert (Table1.user_commented_pr_ids extra = ∅) as ->; [|set_solver].
    apply set_eq. intros p. rewrite Table1_user_commented_pr_ids_spec.
    rewrite elem_of_empty. split; [|done].
    intros (c & Hc & Hu & Hp). rewrite Forall_forall in Hextra.
    by destruct (Hextra c Hc).
  - intros comments' Hperm. apply Table1_kept_ext.
    apply set_eq. intros p. rewrite !Table1_user_commented_pr_ids_spec.
    by setoid_rewrite Hperm.
Qed.

(** The first scenario with a PR of ["cursor[bot]"] added: a ["User"]
    comment on it arrives with the appended comments. *)
Definition growing_prs : list PullRequest :=
  scenario_prs
  ++ [mkPullRequest 20 1 "Cursor" "cursor[bot]" "closed" None ""].

Definition growing_comments : list Comment := [mkComment (Some 10) "User"].

Definition growing_extra : list Comment :=
  [mkComment (Some 20) "User"; mkComment (Some 20) "Bot"].

Example growing_kept :
  (p_id ∘ k_pr) <$> Table1.kept scenario_repos growing_prs growing_comments
  = [10]
  ∧ (p_id ∘ k_pr)
      <$> Table1.kept scenario_repos growing_prs
            (growing_comments ++ growing_extra)
    = [10; 20].
Proof. by vm_compute. Qed.

Lemma kept_grows_with_user_comments_witness :
  Forall (λ c, c_pr_id c ≠ None) (growing_comments ++ growing_extra)
  ∧ Table1.kept scenario_repos growing_prs growing_comments
      `sublist_of` Table1.kept scenario_repos growing_prs
                     (growing_comments ++ growing_extra)
  ∧ (Forall (λ c, c_user_type c ≠ "User") growing_extra ->
     Table1.kept scenario_repos growing_prs (growing_comments ++ growing_extra)
     = Table1.kept scenario_repos growing_prs growing_comments)
  ∧ (∀ comments', growing_comments ≡ₚ comments' ->
     Table1.kept scenario_repos growing_prs comments'
     = Table1.kept scenario_repos growing_prs growing_comments).
Proof.
  assert (Hnn : Forall (λ c, c_pr_id c ≠ None)
                  (growing_comments ++ growing_extra))
    by (by repeat constructor).
  split; [exact Hnn|].
  exact (kept_grows_with_user_comments scenario_repos growing_prs
           growing_comments growing_extra Hnn).
Defined.

(** ** The grouped table *)

Lemma filter_all {A : Type} (l : list A) : filter (λ _, True) l = l.
Proof.
  induction l as [|x l IH]; [done|].
  rewrite filter_cons_True by done. by rewrite IH.
Qed.

Lemma group_row_bounds kept a :
  a ∈ (λ k, p_agent (k_pr k)) <$> kept ->
  1 ≤ t_total (group_row kept a)
  ∧ 0 ≤ t_merged (group_row kept a) ≤ t_total (group_row kept a)
  ∧ 0 ≤ t_rejected (group_row kept a) ≤ t_total (group_row kept a).
Proof.
  intros (k & -> & Hk)%list_elem_of_fmap. simpl.
  pose proof (sum_merged_le_total (p_agent (k_pr k)) kept) as Hle.
  assert (1 ≤ count_total (p_agent (k_pr k)) kept).
  { unfold count_total.
    assert (Hin : k ∈ filter (λ k', p_agent (k_pr k') = p_agent (k_pr k)) kept)
      by by apply list_elem_of_filter.
    destruct (filter _ kept); [by apply elem_of_nil in Hin|]. simpl. lia. }
  unfold sum_merged in *. lia.
Qed.

(** X3.  The grouped table of [table1.py], before the roster filter, has
    one row per agent occurring in [kept], in ascending order of agent name;
    every row has [total >= 1] and [0 <= merged <= total], hence
    [0 <= rejected <= total]; its [total] column sums to the number of kept
    rows; and Table 1 keeps some of its rows, in order. *)
Theorem grouped_table_rows
    (repos : list Repository) (prs : list PullRequest)
    (comments : list Comment) :
  let kept := Table1.kept repos prs comments in
  let table := Table1.table repos prs comments in
  StronglySorted str_lt (t_agent <$> table)
  ∧ (∀ a, a ∈ t_agent <$> table ↔ a ∈ (λ k, p_agent (k_pr k)) <$> kept)
  ∧ (∀ r, r ∈ table ->
          1 ≤ t_total r ∧ 0 ≤ t_merged r ≤ t_total r
          ∧ 0 ≤ t_rejected r ≤ t_total r)
  ∧ column_sum t_total table = Z.of_nat (length kept)
  ∧ Table1.table1 repos prs comments `sublist_of` table.
Proof.
  intros kept table.
  assert (Hagents : t_agent <$> table
                    = group_keys ((λ k, p_agent (k_pr k)) <$> kept)).
  { unfold table, Table1.table, groupby_agent.
    rewrite <- list_fmap_compose. apply list_fmap_id. }
  split_and!.
  - rewrite Hagents. apply group_keys_sorted.
  - intros a. by rewrite Hagents, elem_of_group_keys.
  - intros r (a & -> & Ha)%list_elem_of_fmap.
    apply group_row_bounds. by apply elem_of_group_keys.
  - unfold table, Table1.table, groupby_agent.
    rewrite column_sum_total.
    + do 2 f_equal. rewrite (filter_ext_elem _ (λ _, True)).
      * apply filter_all.
      * intros k Hk. split; [done|intros _].
        apply elem_of_group_keys.
        by apply (list_elem_of_fmap_2 (λ k, p_agent (k_pr k))).
    + eapply StronglySorted_NoDup;
        [apply str_lt_irrefl|apply group_keys_sorted].
  - unfold Table1.table1. fold table.
    rewrite sort_values_sorted; [apply sublist_filter|].
    unfold table, Table1.table.
    rewrite (filter_groupby_agent Table1.AGENTS) by apply AGENTS_sorted.
    unfold roster_table.
    eapply StronglySorted_fmap;
      [|apply StronglySorted_filter, AGENTS_order_sorted].
    done.
Qed.

(** ** The TOTAL line and the kept count *)

Lemma Table1_kept_ids_eq repos prs comments :
  Table1.kept_ids repos prs comments
  = list_to_set ((λ k, p_id (k_pr k)) <$> Table1.kept repos prs comments).
Proof.
  pose proof (partition_property_intro Table1.BOT_LIST comments
                (Table1.selected repos prs)
                (Table1.user_commented_pr_ids comments)
                (Table1_user_commented_pr_ids_spec comments))
    as (_ & Hids & _).
  unfold Table1.kept_ids, Table1.kept. rewrite <- list_fmap_compose.
  symmetry. exact Hids.
Qed.

Lemma Table1_kept_ids_NoDup repos prs comments :
  NoDup (p_id <$> prs) ->
  NoDup ((λ k, p_id (k_pr k)) <$> Table1.kept repos prs comments).
Proof.
  intros Hnd. unfold Table1.kept, Table1.selected.
  rewrite <- list_fmap_compose.
  by do 2 apply NoDup_fmap_filter.
Qed.

(** X4.  The TOTAL line of [table1.py] is consistent: the total is the sum
    of the merged and rejected totals, none is negative, and the total is
    at most the number of kept rows, with equality when every kept PR has a
    roster agent.  The printed kept count is at most the number of kept
    rows, and equals it when PR ids are unique. *)
Theorem total_line_consistent
    (repos : list Repository) (prs : list PullRequest)
    (comments : list Comment) :
  let kept := Table1.kept repos prs comments in
  Table1.total_total repos prs comments
  = Table1.total_merged repos prs comments
    + Table1.total_rejected repos prs comments
  ∧ 0 ≤ Table1.total_merged repos prs comments
  ∧ 0 ≤ Table1.total_rejected repos prs comments
  ∧ Table1.total_total repos prs comments ≤ Z.of_nat (length kept)
  ∧ ((∀ k, k ∈ kept -> p_agent (k_pr k) ∈ Table1.AGENTS) ->
     Table1.total_total repos prs comments = Z.of_nat (length kept))
  ∧ (size (Table1.kept_ids repos prs comments) ≤ length kept)%nat
  ∧ (NoDup (p_id <$> prs) ->
     size (Table1.kept_ids repos prs comments) = length kept).
Proof.
  intros kept.
  unfold Table1.total_total, Table1.total_merged, Table1.total_rejected.
  rewrite Table1_table1_eq. fold kept.
  pose proof (roster_table_total Table1.AGENTS kept AGENTS_NoDup) as Ht.
  pose proof (roster_table_merged Table1.AGENTS kept AGENTS_NoDup) as Hm.
  assert (Hr : column_sum t_rejected (roster_table Table1.AGENTS kept)
               = column_sum t_total (roster_table Table1.AGENTS kept)
                 - column_sum t_merged (roster_table Table1.AGENTS kept)).
  { unfold roster_table. apply column_sum_rejected. }
  pose proof (length_filter_split
                (λ k, p_agent (k_pr k) ∈ Table1.AGENTS)
                (λ k, is_merged k = true) kept) as Hsplit.
  pose proof (length_filter (λ k, p_agent (k_pr k) ∈ Table1.AGENTS) kept)
    as Hle.
  simpl in Hsplit. rewrite Hr, Ht, Hm.
  split_and!; try lia.
  - intros Hall. do 2 f_equal.
    rewrite (filter_ext_elem _ (λ _, True)); [apply filter_all|].
    intros k Hk. split; [done|intros _; by apply Hall].
  - rewrite Table1_kept_ids_eq.
    etrans; [apply size_list_to_set_le|]. by rewrite length_fmap.
  - intros Hnd. rewrite Table1_kept_ids_eq.
    rewrite size_list_to_set by by apply Table1_kept_ids_NoDup.
    by rewrite length_fmap.
Qed.

(** ** The sample id lists *)

Lemma StronglySorted_le_lt (l : list Z) :
  StronglySorted Z.le l -> NoDup l -> StronglySorted Z.lt l.
Proof.
  induction 1 as [|x l Hl IH Hx]; intros Hnd; [constructor|].
  apply NoDup_cons in Hnd as [Hnin Hnd].
  constructor; [by apply IH|].
  rewrite Forall_forall in Hx. apply Forall_forall. intros y Hy.
  specialize (Hx y Hy). assert (x ≠ y) by (by intros ->). lia.
Qed.

Lemma sorted_spec (s : gset Z) :
  StronglySorted Z.lt (Table1Report.sorted s)
  ∧ Table1Report.sorted s ≡ₚ elements s.
Proof.
  unfold Table1Report.sorted. split; [|apply merge_sort_Permutation].
  apply StronglySorted_le_lt.
  - apply (StronglySorted_merge_sort Z.le).
  - rewrite merge_sort_Permutation. apply NoDup_elements.
Qed.

(** X5.  The id samples printed by [main], [sorted(ids)[:10]], are the ten
    smallest ids of the set in strictly ascending order: the list has
    [min(10, len(ids))] entries, all from the set, and every id of the set
    left out is larger than every id shown. *)
Theorem sample_ids_are_smallest
    (repos : list Repository) (prs : list PullRequest)
    (comments : list Comment) :
  let smallest (ids : gset Z) (l : list Z) :=
    StronglySorted Z.lt l
    ∧ length l = (10 `min` size ids)%nat
    ∧ (∀ x, x ∈ l -> x ∈ ids)
    ∧ (∀ x y, x ∈ l -> y ∈ ids -> y ∉ l -> x < y) in
  let r := Table1Report.report repos prs comments in
  smallest (Table1.excluded_ids repos prs comments)
           (Table1Report.sample_excluded_ids r)
  ∧ smallest (Table1.kept_ids repos prs comments)
             (Table1Report.sample_kept_ids r).
Proof.
  assert (Hgen : ∀ ids : gset Z,
    StronglySorted Z.lt (take 10 (Table1Report.sorted ids))
    ∧ length (take 10 (Table1Report.sorted ids)) = (10 `min` size ids)%nat
    ∧ (∀ x, x ∈ take 10 (Table1Report.sorted ids) -> x ∈ ids)
    ∧ (∀ x y, x ∈ take 10 (Table1Report.sorted ids) -> y ∈ ids ->
              y ∉ take 10 (Table1Report.sorted ids) -> x < y)).
  { intros ids. destruct (sorted_spec ids) as [Hsorted Hperm].
    rewrite <- (take_drop 10 (Table1Report.sorted ids)) in Hsorted.
    apply StronglySorted_app in Hsorted as (Hcross & Htake & _).
    assert (Hin : ∀ y, y ∈ ids ↔ y ∈ Table1Report.sorted ids).
    { intros y. by rewrite Hperm, elem_of_elements. }
    split_and!.
    - done.
    - rewrite length_take. unfold size, set_size. simpl. by rewrite Hperm.
    - intros x Hx. apply Hin. by eapply (subseteq_take 10).
    - intros x y Hx Hy Hny. apply Hcross; [done|].
      apply Hin in Hy.
      rewrite <- (take_drop 10 (Table1Report.sorted ids)) in Hy.
      by apply elem_of_app in Hy as [?|?]. }
  simpl. split; apply Hgen.
Qed.

(** * More of [script/samples.py] *)

(** X6.  The accept / reject split of [samples.py] partitions [kept]: the
    two pools together are exactly the kept rows, a kept row is in the
    accepted pool exactly when its [merged_at] is present and in the
    rejected pool exactly when it is null, and [is_merged] is that test. *)
Theorem pools_partition_kept
    (repos : list Repository) (prs : list PullRequest) (human : gset Z) :
  let kept := Samples.kept repos prs human in
  Samples.combined_accepted repos prs human
    ++ Samples.combined_rejected repos prs human ≡ₚ kept
  ∧ (∀ k, k ∈ kept -> is_merged k = notna (p_merged_at (k_pr k)))
  ∧ (∀ k, k ∈ Samples.combined_accepted repos prs human
          ↔ k ∈ kept ∧ p_merged_at (k_pr k) ≠ None)
  ∧ (∀ k, k ∈ Samples.combined_rejected repos prs human
          ↔ k ∈ kept ∧ p_merged_at (k_pr k) = None).
Proof.
  intros kept.
  assert (Hm : ∀ k, k ∈ kept -> is_merged k = notna (p_merged_at (k_pr k))).
  { intros k (p & -> & _)%list_elem_of_fmap. done. }
  split_and!.
  - apply filter_app_complement.
  - exact Hm.
  - intros k. unfold Samples.combined_accepted. rewrite list_elem_of_filter.
    split.
    + intros [Hk Hin]. split; [done|].
      rewrite (Hm k Hin) in Hk. by destruct (p_merged_at (k_pr k)).
    + intros [Hin Hk]. split; [|done].
      rewrite (Hm k Hin). by destruct (p_merged_at (k_pr k)).
  - intros k. unfold Samples.combined_rejected. rewrite list_elem_of_filter.
    split.
    + intros [Hk Hin]. split; [done|].
      rewrite (Hm k Hin) in Hk. by destruct (p_merged_at (k_pr k)).
    + intros [Hin Hk]. split; [|done].
      rewrite (Hm k Hin), Hk. done.
Qed.

Lemma Samples_human_eq comments human :
  Samples.human_commented_ids comments = Ok human ->
  human = Table1.user_commented_pr_ids comments.
Proof.
  intros Hh. apply set_eq. intros p.
  by rewrite (Samples_human_commented_ids_spec comments human p Hh),
    Table1_user_commented_pr_ids_spec.
Qed.

(** X7.  The sample sizes of [samples.py] are the merged and rejected
    totals that [table1.py] prints on its TOTAL line, whenever the cast of
    the commented ids succeeds. *)
Theorem sample_targets_are_table1_totals
    (repos : list Repository) (prs : list PullRequest)
    (comments : list Comment) (human : gset Z) :
  Samples.human_commented_ids comments = Ok human ->
  Samples.ACCEPT_SAMPLE_SIZE repos prs human
  = Table1.total_merged repos prs comments
  ∧ Samples.REJECT_SAMPLE_SIZE repos prs human
  = Table1.total_rejected repos prs comments.
Proof.
  intros ->%Samples_human_eq.
  unfold Samples.ACCEPT_SAMPLE_SIZE, Samples.REJECT_SAMPLE_SIZE,
    Table1.total_merged, Table1.total_rejected.
  rewrite Samples_table1_eq, Table1_table1_eq. done.
Qed.

Lemma sample_targets_are_table1_totals_witness :
  Samples.human_commented_ids scenario_comments = Ok {[10]}
  ∧ (Samples.ACCEPT_SAMPLE_SIZE scenario_repos scenario_prs {[10]}
     = Table1.total_merged scenario_repos scenario_prs scenario_comments
     ∧ Samples.REJECT_SAMPLE_SIZE scenario_repos scenario_prs {[10]}
     = Table1.total_rejected scenario_repos scenario_prs scenario_comments).
Proof.
  assert (Hh : Samples.human_commented_ids scenario_comments = Ok {[10]}).
  { vm_compute. reflexivity. }
  split; [exact Hh|].
  exact (sample_targets_are_table1_totals scenario_repos scenario_prs
           scenario_comments {[10]} Hh).
Defined.

(** X8.  A comment typed ["User"] with a null [pr_id] stops [samples.py]
    at the cast of the commented ids: the pipeline raises
    [IntCastingNaNError] and computes no sample, whatever the other
    tables hold. *)
Theorem samples_main_raises_on_null_pr_id `{NumpyRandom} (global : rng)
    (repos : list Repository) (prs : list PullRequest)
    (comments : list Comment) :
  (∃ c, c ∈ comments ∧ c_user_type c = "User" ∧ c_pr_id c = None) ->
  Samples.main global repos prs comments = Err IntCastingNaNError.
Proof.
  intros Hc. unfold Samples.main.
  by rewrite (samples_raises_on_null_pr_id comments Hc).
Qed.

Lemma samples_main_raises_on_null_pr_id_witness :
  (∃ c, c ∈ [mkComment (Some 10) "User"; mkComment None "User"]
        ∧ c_user_type c = "User" ∧ c_pr_id c = None)
  ∧ Samples.main (H := Lcg.generator) 0 scenario_repos scenario_prs
      [mkComment (Some 10) "User"; mkComment None "User"]
    = Err IntCastingNaNError.
Proof.
  assert (Hc : ∃ c, c ∈ [mkComment (Some 10) "User"; mkComment None "User"]
                    ∧ c_user_type c = "User" ∧ c_pr_id c = None).
  { exists (mkComment None "User"). split_and!; [|done..].
    apply elem_of_cons. right. by apply list_elem_of_singleton. }
  split; [exact Hc|].
  exact (samples_main_raises_on_null_pr_id (H := Lcg.generator) 0
           scenario_repos scenario_prs _ Hc).
Defined.

Lemma stratified_n_sample_nil `{NumpyRandom} {A : Type} (global : rng)
    (n : Z) (col : A -> string) :
  0 ≤ n -> Samples.stratified_n_sample global [] n col = Ok ([], []).
Proof.
  intros Hn. unfold Samples.stratified_n_sample. simpl.
  rewrite Z.min_r by lia. by rewrite bool_decide_eq_true_2.
Qed.

Lemma Samples_sample_sizes_nonneg repos prs human :
  0 ≤ Samples.ACCEPT_SAMPLE_SIZE repos prs human
  ∧ 0 ≤ Samples.REJECT_SAMPLE_SIZE repos prs human.
Proof.
  destruct (Samples_sample_sizes repos prs human) as [-> ->]. lia.
Qed.

(** X9.  When neither pool has more than [VALIDATE_AGREEMENT_SAMPLE] rows,
    [samples.py] never reaches [train_test_split]: it returns, the two
    agreement-check samples are the whole pools, and both manual-check
    samples are empty. *)
Theorem small_pools_need_no_split `{NumpyRandom} (global : rng)
    (repos : list Repository) (prs : list PullRequest)
    (comments : list Comment) (human : gset Z) :
  Samples.human_commented_ids comments = Ok human ->
  Z.of_nat (length (Samples.combined_accepted repos prs human))
    ≤ Samples.VALIDATE_AGREEMENT_SAMPLE ->
  Z.of_nat (length (Samples.combined_rejected repos prs human))
    ≤ Samples.VALIDATE_AGREEMENT_SAMPLE ->
  Samples.main global repos prs comments
  = Ok (Samples.mkOutputs
          (Samples.combined_rejected repos prs human)
          (Samples.combined_accepted repos prs human) [] []).
Proof.
  intros Hh Ha Hr.
  destruct (Samples_sample_sizes_nonneg repos prs human) as [Hna Hnr].
  eapply Samples_main_intro.
  - exact Hh.
  - by apply stratified_n_sample_ge.
  - by apply stratified_n_sample_ge.
  - by apply stratified_n_sample_nil.
  - by apply stratified_n_sample_nil.
Qed.

Lemma small_pools_need_no_split_witness :
  Samples.human_commented_ids scenario_comments = Ok {[10]}
  ∧ Z.of_nat (length (Samples.combined_accepted scenario_repos scenario_prs
                        {[10]}))
    ≤ Samples.VALIDATE_AGREEMENT_SAMPLE
  ∧ Z.of_nat (length (Samples.combined_rejected scenario_repos scenario_prs
                        {[10]}))
    ≤ Samples.VALIDATE_AGREEMENT_SAMPLE
  ∧ Samples.main (H := Lcg.generator) 0 scenario_repos scenario_prs
      scenario_comments
    = Ok (Samples.mkOutputs
            (Samples.combined_rejected scenario_repos scenario_prs {[10]})
            (Samples.combined_accepted scenario_repos scenario_prs {[10]})
            [] []).
Proof.
  assert (Hh : Samples.human_commented_ids scenario_comments = Ok {[10]}).
  { vm_compute. reflexivity. }
  assert (Ha : Z.of_nat (length (Samples.combined_accepted scenario_repos
                                   scenario_prs {[10]}))
               ≤ Samples.VALIDATE_AGREEMENT_SAMPLE).
  { vm_compute. discriminate. }
  assert (Hr : Z.of_nat (length (Samples.combined_rejected scenario_repos
                                   scenario_prs {[10]}))
               ≤ Samples.VALIDATE_AGREEMENT_SAMPLE).
  { vm_compute. discriminate. }
  split_and!; [exact Hh|exact Ha|exact Hr|].
  exact (small_pools_need_no_split (H := Lcg.generator) 0 scenario_repos
           scenario_prs scenario_comments {[10]} Hh Ha Hr).
Defined.

(** X10.  The sizes of the four samples of a run that returns: each
    agreement-check sample has [min(30, |pool|)] rows, and each
    manual-check sample has the target size derived from Table 1, capped by
    what the agreement-check sample left of the pool. *)
Theorem output_sizes `{NumpyRandom} (global : rng)
    (repos : list Repository) (prs : list PullRequest)
    (comments : list Comment) (o : Samples.Outputs) :
  Samples.main global repos prs comments = Ok o ->
  ∃ human,
    Samples.human_commented_ids comments = Ok human ∧
    let accepted := Z.of_nat (length (Samples.combined_accepted repos prs human)) in
    let rejected := Z.of_nat (length (Samples.combined_rejected repos prs human)) in
    Z.of_nat (length (Samples.sample_check_accepts o))
      = Z.min Samples.VALIDATE_AGREEMENT_SAMPLE accepted ∧
    Z.of_nat (length (Samples.sample_check_rejected o))
      = Z.min Samples.VALIDATE_AGREEMENT_SAMPLE rejected ∧
    Z.of_nat (length (Samples.manual_check_accepted o))
      = Z.min (Samples.ACCEPT_SAMPLE_SIZE repos prs human)
              (accepted - Z.min Samples.VALIDATE_AGREEMENT_SAMPLE accepted) ∧
    Z.of_nat (length (Samples.manual_check_rejected o))
      = Z.min (Samples.REJECT_SAMPLE_SIZE repos prs human)
              (rejected - Z.min Samples.VALIDATE_AGREEMENT_SAMPLE rejected).
Proof.
  intros Hmain.
  destruct (Samples_main_inv _ _ _ _ _ Hmain)
    as (human & rr & ar & rest_r & rest_a & Eh & E1 & E2 & E3 & E4).
  destruct (stratified_n_sample_partition _ _ _ _ _ _ E1) as [P1 L1].
  destruct (stratified_n_sample_partition _ _ _ _ _ _ E2) as [P2 L2].
  destruct (stratified_n_sample_partition _ _ _ _ _ _ E3) as [P3 L3].
  destruct (stratified_n_sample_partition _ _ _ _ _ _ E4) as [P4 L4].
  apply Permutation_length in P1, P2. rewrite length_app in P1, P2.
  exists human. split; [done|]. simpl. split_and!; [done|done|lia|lia].
Qed.

Lemma output_sizes_witness :
  Samples.main (H := Lcg.generator) 0 scenario_repos sampling_prs []
    = Ok sampling_outputs
  ∧ ∃ human,
    Samples.human_commented_ids [] = Ok human ∧
    let accepted := Z.of_nat (length (Samples.combined_accepted scenario_repos sampling_prs human)) in
    let rejected := Z.of_nat (length (Samples.combined_rejected scenario_repos sampling_prs human)) in
    Z.of_nat (length (Samples.sample_check_accepts sampling_outputs))
      = Z.min Samples.VALIDATE_AGREEMENT_SAMPLE accepted ∧
    Z.of_nat (length (Samples.sample_check_rejected sampling_outputs))
      = Z.min Samples.VALIDATE_AGREEMENT_SAMPLE rejected ∧
    Z.of_nat (length (Samples.manual_check_accepted sampling_outputs))
      = Z.min (Samples.ACCEPT_SAMPLE_SIZE scenario_repos sampling_prs human)
              (accepted - Z.min Samples.VALIDATE_AGREEMENT_SAMPLE accepted) ∧
    Z.of_nat (length (Samples.manual_check_rejected sampling_outputs))
      = Z.min (Samples.REJECT_SAMPLE_SIZE scenario_repos sampling_prs human)
              (rejected - Z.min Samples.VALIDATE_AGREEMENT_SAMPLE rejected).
Proof.
  assert (Hmain : Samples.main (H := Lcg.generator) 0 scenario_repos
                    sampling_prs [] = Ok sampling_outputs).
  { vm_compute. reflexivity. }
  split; [exact Hmain|].
  exact (output_sizes (H := Lcg.generator) 0 scenario_repos sampling_prs []
           sampling_outputs Hmain).
Defined.

(** X11.  No PR appears twice in the worklists of a run that returns: with
    unique PR ids, the ids of the four samples taken together are pairwise
    distinct; every row of the accepted samples is a kept row with
    [is_merged], every row of the rejected samples a kept row without. *)
Theorem worklists_disjoint `{NumpyRandom} (global : rng)
    (repos : list Repository) (prs : list PullRequest)
    (comments : list Comment) (o : Samples.Outputs) :
  NoDup (p_id <$> prs) ->
  Samples.main global repos prs comments = Ok o ->
  NoDup ((λ k, p_id (k_pr k))
           <$> (Samples.sample_check_rejected o
                ++ Samples.sample_check_accepts o
                ++ Samples.manual_check_rejected o
                ++ Samples.manual_check_accepted o))
  ∧ ∃ human,
      Samples.human_commented_ids comments = Ok human ∧
      (∀ k, k ∈ Samples.sample_check_accepts o
                  ++ Samples.manual_check_accepted o ->
            k ∈ Samples.kept repos prs human ∧ is_merged k = true) ∧
      (∀ k, k ∈ Samples.sample_check_rejected o
                  ++ Samples.manual_check_rejected o ->
            k ∈ Samples.kept repos prs human ∧ is_merged k = false).
Proof.
  intros Hnd Hmain.
  destruct (Samples_main_inv _ _ _ _ _ Hmain)
    as (human & rr & ar & rest_r & rest_a & Eh & E1 & E2 & E3 & E4).
  destruct (stratified_n_sample_partition _ _ _ _ _ _ E1) as [P1 _].
  destruct (stratified_n_sample_partition _ _ _ _ _ _ E2) as [P2 _].
  destruct (stratified_n_sample_partition _ _ _ _ _ _ E3) as [P3 _].
  destruct (stratified_n_sample_partition _ _ _ _ _ _ E4) as [P4 _].
  pose proof (Samples_kept_ids_NoDup repos prs human Hnd) as Hk.
  set (sr := Samples.sample_check_rejected o) in *.
  set (sa := Samples.sample_check_accepts o) in *.
  set (mr := Samples.manual_check_rejected o) in *.
  set (ma := Samples.manual_check_accepted o) in *.
  assert (Hall : (sr ++ sa ++ mr ++ ma) ++ (rest_r ++ rest_a)
                 ≡ₚ Samples.kept repos prs human).
  { rewrite <- (filter_app_complement (λ k, is_merged k = true)
                  (Samples.kept repos prs human)).
    fold (Samples.combined_accepted repos prs human).
    fold (Samples.combined_rejected repos prs human).
    rewrite <- P1, <- P2, <- P3, <- P4. solve_Permutation. }
  split.
  - rewrite <- Hall, fmap_app in Hk. by apply NoDup_app in Hk as [? _].
  - exists human. split; [done|]. split.
    + intros k Hin.
      assert (Hacc : k ∈ Samples.combined_accepted repos prs human).
      { rewrite <- P2, <- P4. set_solver. }
      by apply list_elem_of_filter in Hacc as [? ?].
    + intros k Hin.
      assert (Hrej : k ∈ Samples.combined_rejected repos prs human).
      { rewrite <- P1, <- P3. set_solver. }
      apply list_elem_of_filter in Hrej as [Hm ?]. split; [done|].
      by destruct (is_merged k).
Qed.

Lemma worklists_disjoint_witness :
  NoDup (p_id <$> sampling_prs)
  ∧ Samples.main (H := Lcg.generator) 0 scenario_repos sampling_prs []
    = Ok sampling_outputs
  ∧ (NoDup ((λ k, p_id (k_pr k))
              <$> (Samples.sample_check_rejected sampling_outputs
                   ++ Samples.sample_check_accepts sampling_outputs
                   ++ Samples.manual_check_rejected sampling_outputs
                   ++ Samples.manual_check_accepted sampling_outputs))
     ∧ ∃ human,
         Samples.human_commented_ids [] = Ok human ∧
         (∀ k, k ∈ Samples.sample_check_accepts sampling_outputs
                     ++ Samples.manual_check_accepted sampling_outputs ->
               k ∈ Samples.kept scenario_repos sampling_prs human
               ∧ is_merged k = true) ∧
         (∀ k, k ∈ Samples.sample_check_rejected sampling_outputs
                     ++ Samples.manual_check_rejected sampling_outputs ->
               k ∈ Samples.kept scenario_repos sampling_prs human
               ∧ is_merged k = false)).
Proof.
  assert (Hnd : NoDup (p_id <$> sampling_prs)).
  { refine (bool_decide_unpack _ _). vm_compute. exact I. }
  assert (Hmain : Samples.main (H := Lcg.generator) 0 scenario_repos
                    sampling_prs [] = Ok sampling_outputs).
  { vm_compute. reflexivity. }
  split_and!; [exact Hnd|exact Hmain|..];
    pose proof (worklists_disjoint (H := Lcg.generator) 0 scenario_repos
                  sampling_prs [] sampling_outputs Hnd Hmain) as [H1 H2];
    [exact H1|exact H2].
Defined.

(** X12.  A negative [n] is not clamped to zero: [stratified_n_sample]
    passes a test size larger than the pool to [train_test_split] and
    raises [ValueError], also on an empty pool. *)
Theorem stratified_n_sample_negative `{NumpyRandom} {A : Type}
    (global : rng) (pool : list A) (n : Z) (col : A -> string) :
  n < 0 ->
  ∃ msg, Samples.stratified_n_sample global pool n col = Err (ValueError msg).
Proof.
  intros Hn. apply stratified_n_sample_Err. unfold sampleable.
  rewrite Z.min_l by lia. lia.
Qed.

Lemma stratified_n_sample_negative_witness :
  -1 < 0
  ∧ ∃ msg,
      Samples.stratified_n_sample (H := Lcg.generator) 0
        [row 1 "Devin" true; row 2 "Devin" true] (-1) Samples.agent
      = Err (ValueError msg).
Proof.
  split; [lia|].
  apply (stratified_n_sample_negative (H := Lcg.generator)). lia.
Defined.

(** * The rest of [script/table1.py]: locating and loading the dataset

    The file system and pandas' parquet reader are external; they are
    interfaces here.  Printing is not modelled. *)
Class FileSystem := {
  Path : Type;
  mkPath : string -> Path;            (* [Path(s)] *)
  joinpath : Path -> string -> Path;  (* [p / name] *)
  is_file : Path -> bool;             (* [p.is_file()] *)
  is_dir : Path -> bool;              (* [p.is_dir()] *)
  iterdir : Path -> list Path;        (* [p.iterdir()], in its order *)
  resolve : Path -> Path              (* [p.resolve()] *)
}.

(** Where [pd.read_parquet] reads from: a URI or a local path. *)
Inductive Source `{FileSystem} :=
  | Uri (u : string)
  | File (p : Path).

(** What [main] can raise while it locates and loads the tables: its own
    [FileNotFoundError], the [OSError] of creating the output directory,
    or an exception of the reading. *)
Inductive LoadException :=
  | FileNotFoundError (msg : string)
  | OSError (msg : string)
  | Raised (e : Exception).

Inductive Load (A : Type) :=
  | Loaded (a : A)
  | Failed (e : LoadException).
Arguments Loaded {A} a.
Arguments Failed {A} e.

#[global] Instance Load_bind : MBind Load := λ A B k m,
  match m with
  | Loaded a => k a
  | Failed e => Failed e
  end.

Module Table1Setup.

Definition HF_BASE : string := "hf://datasets/hao-li/AIDev".

Definition REQUIRED_FILES : list string :=
  ["pull_request.parquet"; "repository.parquet"].

Section Setup.
Context `{FileSystem}.
Context {Frame : Type}.
(** [pd.read_parquet(source, columns=...)] *)
Variable pd_read_parquet : Source -> option (list string) -> Result Frame.
(** [p.parent] *)
Variable parent : Path -> Path.
(** [p.mkdir(parents=True, exist_ok=True)]: [None] when it returns, the
    directory then exists; or the message of the [OSError] it raises, as
    it does when [p] or one of its parents is a file, or may not be
    written to. *)
Variable mkdir : Path -> option string.

Definition is_dataset_dir (p : Path) : bool :=
  forallb (λ f, is_file (joinpath p f)) REQUIRED_FILES.

(** The inner loop of [find_dataset_dir]: [for sub in cand.iterdir()]. *)
Fixpoint find_in_subdirs (subs : list Path) : option Path :=
  match subs with
  | [] => None
  | sub :: subs' =>
      if is_dir sub && is_dataset_dir sub then Some (resolve sub)
      else find_in_subdirs subs'
  end.

(** The outer loop: [for cand in candidates]. *)
Fixpoint find_in_candidates (cands : list Path) : option Path :=
  match cands with
  | [] => None
  | cand :: cands' =>
      if is_dataset_dir cand then Some (resolve cand)
      else
        match (if is_dir cand then find_in_subdirs (iterdir cand)
               else None) with
        | Some found => Some found
        | None => find_in_candidates cands'
        end
  end.

Definition candidates (data_dir_hint : option Path) : list Path :=
  match data_dir_hint with
  | Some hint => [hint]
  | None => []
  end ++ [mkPath "."; mkPath ".."; mkPath "../.."].

Definition find_dataset_dir (data_dir_hint : option Path) : option Path :=
  find_in_candidates (candidates data_dir_hint).

(** [read_parquet_file(name, columns=..., base_dir=...)]; [DATA_SOURCE] is
    the configuration constant the function reads.  An empty [columns]
    is falsy and becomes [None]. *)
Definition read_parquet_file (DATA_SOURCE : string) (name : string)
    (columns : option (list string)) (base_dir : option Path)
    : Result Frame :=
  let columns' :=
    match columns with
    | Some (c :: cs) => Some (c :: cs)
    | _ => None
    end in
  if decide (DATA_SOURCE = "hf") then
    pd_read_parquet (Uri (HF_BASE +:+ "/" +:+ name)) columns'
  else
    match base_dir with
    | None =>
        Err (ValueError "base_dir is required when DATA_SOURCE='local'")
    | Some base => pd_read_parquet (File (joinpath base name)) columns'
    end.

Definition lift {B : Type} (r : Result B) : Load B :=
  match r with
  | Ok b => Loaded b
  | Err e => Failed (Raised e)
  end.

(** [out_dir = repo_root / "replicationPackage" / "outputs"] *)
Definition out_dir (repo_root : Path) : Path :=
  joinpath (joinpath repo_root "replicationPackage") "outputs".

(** [out_dir.mkdir(parents=True, exist_ok=True)] *)
Definition make_out_dir (repo_root : Path) : Load unit :=
  match mkdir (out_dir repo_root) with
  | None => Loaded ()
  | Some msg => Failed (OSError msg)
  end.

(** [main], from its start to the three loaded tables: the setup by
    [DATA_SOURCE], which creates the output directory in both branches,
    then the three reads.  What is printed is not part of the result;
    [relpath_to_repo], called for the message of the local branch, catches
    every exception. *)
Definition main_load (DATA_SOURCE : string) (DATA_DIR : option Path)
    : Load (Frame * Frame * Frame) :=
  base ←
    (if decide (DATA_SOURCE = "local") then
       match find_dataset_dir DATA_DIR with
       | None =>
           Failed (FileNotFoundError
                     "Dataset directory could not be automatically detected.")
       | Some base =>
           let repo_root := resolve (parent base) in
           _ ← make_out_dir repo_root;
           Loaded (Some base)
       end
     else
       let repo_root := resolve (mkPath ".") in
       _ ← make_out_dir repo_root;
       Loaded None);
  repos ← lift (read_parquet_file DATA_SOURCE "repository.parquet"
                  (Some ["id"; "stars"]) base);
  prs ← lift (read_parquet_file DATA_SOURCE "pull_request.parquet"
                (Some ["id"; "repo_id"; "agent"; "user"; "state";
                       "merged_at"; "html_url"]) base);
  comments ← lift (read_parquet_file DATA_SOURCE "pr_comments.parquet"
                     (Some ["pr_id"; "user_type"]) base);
  Loaded (repos, prs, comments).
End Setup.

End Table1Setup.

(** ** Locating the dataset directory *)

Section SetupProofs.
Context `{FileSystem}.
Import Table1Setup.







End SetupProofs.

(** ** Loading the tables *)

Section LoadProofs.
Context `{FileSystem}.
Context {Frame : Type}.
Variable pd_read_parquet : Source -> option (list string) -> Result Frame.
Variable parent : Path -> Path.
Variable mkdir : Path -> option string.
Import Table1Setup.





(** X16.  Edge cases of [read_parquet_file]: an empty [columns] is read as
    no column selection, so all columns are loaded; with ["hf"] the
    [base_dir] is ignored; and outside ["hf"] a missing [base_dir] raises
    [ValueError] before anything is read. *)
Theorem read_parquet_file_edges (DATA_SOURCE name : string)
    (columns : option (list string)) (base_dir : option Path) :
  read_parquet_file pd_read_parquet DATA_SOURCE name (Some []) base_dir
  = read_parquet_file pd_read_parquet DATA_SOURCE name None base_dir
  ∧ read_parquet_file pd_read_parquet "hf" name columns base_dir
    = read_parquet_file pd_read_parquet "hf" name columns None
  ∧ (DATA_SOURCE ≠ "hf" ->
     read_parquet_file pd_read_parquet DATA_SOURCE name columns None
     = Err (ValueError "base_dir is required when DATA_SOURCE='local'")).
Proof.
  unfold read_parquet_file. split_and!; [done..|].
  intros Hhf. by destruct (decide (DATA_SOURCE = "hf")).
Qed.
End LoadProofs.

(** A small file system: the working directory holds a directory [data]
    with the two required files and a directory [src] without. *)
Module ExampleFs.

#[export] Instance fs : FileSystem := {|
  Path := string;
  mkPath := λ s, s;
  joinpath := λ p name, p +:+ "/" +:+ name;
  is_file := λ p,
    bool_decide (p ∈ ["./data/pull_request.parquet";
                      "./data/repository.parquet"; "./src/table1.py"]);
  is_dir := λ p, bool_decide (p ∈ ["."; ".."; "./data"; "./src"]);
  iterdir := λ p,
    if bool_decide (p = ".") then ["./src"; "./data"; "./README.md"] else [];
  resolve := λ p, "/home/user/repo/" +:+ p
|}.

Example find_dataset_dir_in_subdirectory :
  Table1Setup.find_dataset_dir None = Some "/home/user/repo/./data"
  ∧ Table1Setup.find_dataset_dir (Some "./src")
    = Some "/home/user/repo/./data"
  ∧ Table1Setup.find_dataset_dir (Some "./data")
    = Some "/home/user/repo/./data"
  ∧ Table1Setup.is_dataset_dir "./src" = false.
Proof. by vm_compute. Qed.

(** A reader that returns the name of what it was asked to read, and two
    behaviours of [mkdir]. *)
Definition read (source : Source) (columns : option (list string))
    : Result string :=
  Ok match source with
     | Uri u => u
     | File p => p
     end.

Definition parent (p : string) : string := p +:+ "/..".

Definition mkdir_ok (p : string) : option string := None.

Definition mkdir_denied (p : string) : option string :=
  Some "Permission denied".

Example main_load_examples :
  Table1Setup.main_load read parent mkdir_ok "local" None
  = Loaded ("/home/user/repo/./data/repository.parquet",
            "/home/user/repo/./data/pull_request.parquet",
            "/home/user/repo/./data/pr_comments.parquet")
  ∧ Table1Setup.main_load read parent mkdir_denied "local" None
    = Failed (OSError "Permission denied")
  ∧ Table1Setup.main_load read parent mkdir_ok "local" (Some "./src/table1.py")
    = Table1Setup.main_load read parent mkdir_ok "local" None
  ∧ Table1Setup.main_load read parent mkdir_ok "hf" None
    = Loaded ("hf://datasets/hao-li/AIDev/repository.parquet",
              "hf://datasets/hao-li/AIDev/pull_request.parquet",
              "hf://datasets/hao-li/AIDev/pr_comments.parquet")
  ∧ Table1Setup.main_load read parent mkdir_denied "hf" None
    = Failed (OSError "Permission denied")
  ∧ Table1Setup.main_load read parent mkdir_ok "s3" None
    = Failed (Raised (ValueError
                        "base_dir is required when DATA_SOURCE='local'")).
Proof. by vm_compute. Qed.

End ExampleFs.

(** * Stratification: the share of each stratum in the sample *)

Lemma filter_none {A : Type} (P : A -> Prop) `{!∀ x, Decision (P x)}
    (l : list A) :
  (∀ x, x ∈ l -> ¬ P x) -> filter P l = [].
Proof.
  intros Hl. rewrite (filter_ext_elem P (λ _, False)).
  - clear. induction l as [|x l IH]; [done|].
    by rewrite filter_cons_False by tauto.
  - intros x Hx. split; [by apply Hl|done].
Qed.

Lemma filter_every {A : Type} (P : A -> Prop) `{!∀ x, Decision (P x)}
    (l : list A) :
  (∀ x, x ∈ l -> P x) -> filter P l = l.
Proof.
  intros Hl. rewrite (filter_ext_elem P (λ _, True)); [apply filter_all|].
  intros x Hx. split; [done|intros _; by apply Hl].
Qed.

Lemma elem_of_concat {A : Type} (x : A) (ls : list (list A)) :
  x ∈ concat ls ↔ ∃ l, x ∈ l ∧ l ∈ ls.
Proof.
  induction ls as [|l ls IH]; simpl.
  - split; [by intros ?%elem_of_nil|]. by intros (l & _ & ?%elem_of_nil).
  - rewrite elem_of_app, IH. setoid_rewrite elem_of_cons. naive_solver.
Qed.

Section Stratification.
Context `{NumpyRandom}.

(** The loop over the classes puts exactly [n_i[i]] indices of class [i]
    into [train]. *)
Lemma split_classes_train_count (y : list string) (l : list nat) (g : rng)
    (classes : list string) (cs ns : list nat) (i : nat) (c : string)
    (n : nat) :
  NoDup classes ->
  Forall2 (λ ci c, length ci = c)
    ((λ c, filter (λ j, y !! j = Some c) l) <$> classes) cs ->
  Forall2 le ns cs ->
  classes !! i = Some c -> ns !! i = Some n ->
  length (filter (λ j, y !! j = Some c)
            (split_classes g ((λ c, filter (λ j, y !! j = Some c) l)
                                <$> classes)
                           cs ns (zip_with Nat.sub cs ns)).1.1) = n.
Proof.
  intros Hnd. revert g cs ns i.
  induction Hnd as [|c0 cl Hc0 Hnd IH]; intros g cs ns i Hcis Hns Hi Hn.
  { done. }
  rewrite fmap_cons in Hcis.
  inversion Hcis as [|ci0 k0 cis' cs' Hk0 Hcis']; subst.
  inversion Hns as [|n0 k0' ns' cs'' Hn0 Hns']; subst.
  set (cisl := (λ c, filter (λ j, y !! j = Some c) l) <$> cl) in *.
  simpl.
  pose proof (rng_permutation_perm g
                (length (filter (λ j, y !! j = Some c0) l))) as Hp.
  destruct (rng_permutation g (length (filter (λ j, y !! j = Some c0) l)))
    as [p g1]. simpl in Hp.
  pose proof (take_clip_perm _ p Hp) as Hclip.
  set (q := take_clip (filter (λ j, y !! j = Some c0) l) p) in *.
  pose proof (split_classes_spec g1 _ _ _ Hcis' Hns') as (Hperm & _ & _).
  specialize (IH g1 cs' ns').
  destruct (split_classes g1 _ cs' ns' (zip_with Nat.sub cs' ns'))
    as [[train test] g2]. simpl in *.
  assert (Hq : ∀ j, j ∈ q -> y !! j = Some c0).
  { intros j Hj. rewrite Hclip in Hj.
    by apply list_elem_of_filter in Hj as [? _]. }
  assert (Htrain : ∀ j, j ∈ train -> ∃ c', c' ∈ cl ∧ y !! j = Some c').
  { intros j Hj.
    assert (Hin : j ∈ concat cisl).
    { rewrite <- Hperm. apply elem_of_app. by left. }
    unfold cisl in Hin.
    apply elem_of_concat in Hin as (ci & Hjci & Hci).
    apply list_elem_of_fmap in Hci as (c' & -> & Hc').
    exists c'. split; [done|].
    by apply list_elem_of_filter in Hjci as [? _]. }
  rewrite filter_app, length_app.
  destruct i as [|i]; simplify_eq/=.
  - rewrite filter_every; last first.
    { intros j Hj. apply Hq. by eapply (subseteq_take n). }
    rewrite filter_none; last first.
    { intros j (c' & Hc' & Hy)%Htrain Hy'. rewrite Hy in Hy'.
      by simplify_eq. }
    rewrite length_take_le; [simpl; lia|].
    assert (length q = length (filter (λ j, y !! j = Some c) l))
      by by rewrite Hclip.
    lia.
  - rewrite filter_none; last first.
    { intros j Hj%(subseteq_take n0)%Hq Hy'. rewrite Hj in Hy'.
      simplify_eq. by apply list_elem_of_lookup_2 in Hi. }
    simpl. by eapply IH.
Qed.

(** The positions of the sample rows of a class in [stratify]. *)
Lemma rows_filter_count {A : Type} (df : list A) (col : A -> string)
    (c : string) (idx : list nat) (rows : list A) :
  Some <$> rows = (λ i, df !! i) <$> idx ->
  length (filter (λ x, col x = c) rows)
  = length (filter (λ j, (col <$> df) !! j = Some c) idx).
Proof.
  revert rows. induction idx as [|j idx IH]; intros [|x rows] Heq;
    csimpl in Heq; try done.
  injection Heq as Hx Hrest.
  rewrite !filter_cons, list_lookup_fmap, <- Hx. simpl.
  destruct (decide (col x = c)), (decide (Some (col x) = Some c));
    simplify_eq; simpl; by rewrite (IH rows).
Qed.
End Stratification.

Section Proportions.
Context `{NumpyRandom}.

Lemma stratified_shuffle_split_train_count global y n_train n_test
    random_state train test i c m :
  (n_train + n_test)%nat = length y ->
  stratified_shuffle_split global y n_train n_test random_state
  = Ok (train, test) ->
  group_keys y !! i = Some c ->
  (approximate_mode (class_counts y) n_train
     (check_random_state global random_state)).1 !! i = Some m ->
  length (filter (λ j, y !! j = Some c) train) = m.
Proof.
  intros Hn. unfold stratified_shuffle_split. fold (class_counts y).
  repeat (case_bool_decide; [done|]).
  set (g0 := check_random_state global random_state).
  pose proof (class_counts_sum y) as Hsum.
  pose proof (approximate_mode_sum (class_counts y) n_train g0 ltac:(lia)) as Hs1.
  pose proof (approximate_mode_le (class_counts y) n_train g0 ltac:(lia)) as Hl1.
  destruct (approximate_mode (class_counts y) n_train g0) as [n_i g1].
  simpl in Hs1, Hl1.
  pose proof (sum_list_sub _ _ Hl1) as Hrem.
  set (rem := zip_with Nat.sub (class_counts y) n_i) in *.
  pose proof (approximate_mode_sum rem n_test g1 ltac:(lia)) as Hs2.
  pose proof (approximate_mode_le rem n_test g1 ltac:(lia)) as Hl2.
  destruct (approximate_mode rem n_test g1) as [t_i g2].
  simpl in Hs2, Hl2.
  assert (t_i = rem) as -> by (apply Forall2_le_sum_eq; [done|lia]).
  pose proof (λ Hnd i c n,
    split_classes_train_count y (seq 0 (length y)) g2 (group_keys y)
      (class_counts y) n_i i c n Hnd (class_indices_counts y) Hl1) as Hcount.
  fold rem in Hcount.
  destruct (split_classes g2 _ (class_counts y) n_i rem)
    as [[train0 test0] g3]. simpl in Hcount.
  pose proof (permute_perm g3 train0) as Hp1.
  destruct (permute g3 train0) as [train' g4]. simpl in Hp1.
  destruct (permute g4 test0) as [test' g5].
  intros [= <- <-] Hi Hm. simpl in Hm.
  rewrite Hp1. eapply Hcount; [|exact Hi|exact Hm].
  eapply StronglySorted_NoDup; [apply str_lt_irrefl|apply group_keys_sorted].
Qed.

Lemma iloc_inv {A : Type} (df : list A) (idx : list nat) (rows : list A) :
  iloc df idx = Ok rows -> Some <$> rows = (λ i, df !! i) <$> idx.
Proof.
  unfold iloc. destruct (mapM _ idx) as [rows'|] eqn:E; [|done].
  intros [= <-]. apply mapM_Some in E.
  induction E as [|i x idx' rows Hi _ IH]; csimpl; [done|].
  by rewrite Hi, IH.
Qed.

(** The number of sample rows of a stratum is the share that
    [_approximate_mode] gives to the size of that stratum. *)
Lemma stratified_n_sample_stratum_count {A : Type} (global : rng)
    (pool : list A) (n : Z) (col : A -> string) (sample remainder : list A)
    (i : nat) (c : string) (m : nat) :
  0 < n < Z.of_nat (length pool) ->
  Samples.stratified_n_sample global pool n col = Ok (sample, remainder) ->
  group_keys (col <$> pool) !! i = Some c ->
  (approximate_mode (class_counts (col <$> pool)) (Z.to_nat n)
     (RandomState Samples.RANDOM_STATE)).1 !! i = Some m ->
  length (filter (λ x, col x = c) sample) = m.
Proof.
  intros Hn Hres Hi Hm.
  unfold Samples.stratified_n_sample in Hres.
  rewrite Z.min_l in Hres by lia.
  rewrite !bool_decide_eq_false_2 in Hres by lia.
  unfold train_test_split in Hres.
  rewrite validate_shuffle_split_Ok in Hres by lia. simpl in Hres.
  replace (Z.to_nat (Z.of_nat (length pool) - n))
    with (length pool - Z.to_nat n)%nat in Hres by lia.
  replace (length pool - (length pool - Z.to_nat n))%nat
    with (Z.to_nat n) in Hres by lia.
  destruct (stratified_shuffle_split global (col <$> pool) (Z.to_nat n)
              (length pool - Z.to_nat n) (Some Samples.RANDOM_STATE))
    as [[train test]|] eqn:Esss; simpl in Hres; [|done].
  destruct (iloc pool train) as [a|] eqn:Ea; simpl in Hres; [|done].
  destruct (iloc pool test) as [b|] eqn:Eb; simpl in Hres; [|done].
  injection Hres as <- <-.
  assert (Hny : (Z.to_nat n + (length pool - Z.to_nat n))%nat
                = length (col <$> pool)) by (rewrite length_fmap; lia).
  pose proof (stratified_shuffle_split_train_count _ _ _ _ _ _ _ i c m
                Hny Esss Hi Hm) as Hk.
  rewrite (rows_filter_count pool col c train a); [done|].
  by apply iloc_inv.
Qed.

Lemma count_fmap {A : Type} (col : A -> string) (c : string) (l : list A) :
  length (filter (λ v, v = c) (col <$> l))
  = length (filter (λ x, col x = c) l).
Proof. by rewrite filter_fmap, length_fmap. Qed.

Lemma count_absent {A : Type} (col : A -> string) (c : string) (l : list A) :
  c ∉ col <$> l -> length (filter (λ x, col x = c) l) = 0%nat.
Proof.
  intros Hc. rewrite filter_none; [done|].
  intros x Hx <-. apply Hc. by apply list_elem_of_fmap_2.
Qed.

(** X17.  How many rows of each stratum the sampler takes depends on the
    sizes of the strata only: two pools whose stratum columns agree up to
    the order of the rows, sampled with the same [n], give samples with
    the same number of rows of every stratum, and so do the remainders,
    whichever rows the pools hold and whatever the state of numpy's
    global generator is. *)
Theorem sample_counts_depend_on_stratum_sizes {A B : Type}
    (global global' : rng) (pool : list A) (pool' : list B) (n : Z)
    (col : A -> string) (col' : B -> string)
    (sample remainder : list A) (sample' remainder' : list B) (c : string) :
  col <$> pool ≡ₚ col' <$> pool' ->
  Samples.stratified_n_sample global pool n col = Ok (sample, remainder) ->
  Samples.stratified_n_sample global' pool' n col' = Ok (sample', remainder') ->
  length (filter (λ x, col x = c) sample)
  = length (filter (λ x, col' x = c) sample')
  ∧ length (filter (λ x, col x = c) remainder)
    = length (filter (λ x, col' x = c) remainder').
Proof.
  intros Hp Hres Hres'.
  assert (Hpool : length (filter (λ x, col x = c) pool)
                  = length (filter (λ x, col' x = c) pool')).
  { rewrite <- (count_fmap col c pool), <- (count_fmap col' c pool').
    by rewrite Hp. }
  assert (Hlen : length pool = length pool').
  { apply Permutation_length in Hp. by rewrite !length_fmap in Hp. }
  destruct (stratified_n_sample_partition _ _ _ _ _ _ Hres) as [P _].
  destruct (stratified_n_sample_partition _ _ _ _ _ _ Hres') as [P' _].
  assert (Hsum : (length (filter (λ x, col x = c) sample)
                  + length (filter (λ x, col x = c) remainder)
                  = length (filter (λ x, col x = c) pool))%nat).
  { by rewrite <- P, filter_app, length_app. }
  assert (Hsum' : (length (filter (λ x, col' x = c) sample')
                   + length (filter (λ x, col' x = c) remainder')
                   = length (filter (λ x, col' x = c) pool'))%nat).
  { by rewrite <- P', filter_app, length_app. }
  cut (length (filter (λ x, col x = c) sample)
       = length (filter (λ x, col' x = c) sample')); [lia|].
  destruct (decide (0 < n < Z.of_nat (length pool))) as [Hn|Hn].
  - assert (Hkeys : group_keys (col <$> pool) = group_keys (col' <$> pool')).
    { apply sorted_same_elements; [apply group_keys_sorted..|].
      intros x. rewrite !elem_of_group_keys. by rewrite Hp. }
    assert (Hcounts : class_counts (col <$> pool)
                      = class_counts (col' <$> pool')).
    { unfold class_counts. rewrite Hkeys. apply list_fmap_ext.
      intros _ x _. simpl. by rewrite Hp. }
    destruct (decide (c ∈ col <$> pool)) as [Hc|Hc].
    + apply elem_of_group_keys, list_elem_of_lookup_1 in Hc as [i Hi].
      destruct (lookup_lt_is_Some_2
                  (approximate_mode (class_counts (col <$> pool))
                     (Z.to_nat n) (RandomState Samples.RANDOM_STATE)).1 i)
        as [m Hm].
      { rewrite approximate_mode_length. unfold class_counts.
        rewrite length_fmap. by eapply lookup_lt_Some. }
      rewrite (stratified_n_sample_stratum_count global pool n col sample
                 remainder i c m Hn Hres Hi Hm).
      symmetry.
      apply (stratified_n_sample_stratum_count global' pool' n col' sample'
               remainder' i c m); [lia|done|by rewrite <- Hkeys|].
      by rewrite <- Hcounts.
    + assert (Hc' : c ∉ col' <$> pool') by (by rewrite <- Hp).
      rewrite (count_absent col c pool Hc) in Hsum.
      rewrite (count_absent col' c pool' Hc') in Hsum'. lia.
  - unfold Samples.stratified_n_sample in Hres, Hres'.
    rewrite <- Hlen in Hres'.
    case_bool_decide as H0; simplify_eq/=.
    { done. }
    case_bool_decide as H1; simplify_eq/=.
    { done. }
    destruct (stratified_n_sample_Err global pool n col) as [msg Hmsg].
    { unfold sampleable. simpl. lia. }
    unfold Samples.stratified_n_sample in Hmsg.
    rewrite !bool_decide_eq_false_2 in Hmsg by done.
    rewrite Hmsg in Hres. done.
Qed.

End Proportions.

(** Two pools with two rows of ["Devin"] and two of ["Cursor"], in
    different orders and with different PRs. *)
Definition striped_pool : list KeptRow :=
  [row 1 "Devin" true; row 2 "Cursor" true;
   row 3 "Devin" true; row 4 "Cursor" true].

Definition blocked_pool : list KeptRow :=
  [row 5 "Cursor" false; row 6 "Cursor" false;
   row 7 "Devin" false; row 8 "Devin" false].

Lemma sample_counts_depend_on_stratum_sizes_witness :
  Samples.agent <$> striped_pool ≡ₚ Samples.agent <$> blocked_pool
  ∧ Samples.stratified_n_sample (H := Lcg.generator) 0 striped_pool 2
      Samples.agent
    = Ok ([row 2 "Cursor" true; row 3 "Devin" true],
          [row 1 "Devin" true; row 4 "Cursor" true])
  ∧ Samples.stratified_n_sample (H := Lcg.generator) 5 blocked_pool 2
      Samples.agent
    = Ok ([row 5 "Cursor" false; row 8 "Devin" false],
          [row 7 "Devin" false; row 6 "Cursor" false])
  ∧ length (filter (λ x, Samples.agent x = "Devin")
              [row 2 "Cursor" true; row 3 "Devin" true])
    = length (filter (λ x, Samples.agent x = "Devin")
                [row 5 "Cursor" false; row 8 "Devin" false])
  ∧ length (filter (λ x, Samples.agent x = "Devin")
              [row 1 "Devin" true; row 4 "Cursor" true])
    = length (filter (λ x, Samples.agent x = "Devin")
                [row 7 "Devin" false; row 6 "Cursor" false]).
Proof.
  assert (Hp : Samples.agent <$> striped_pool
               ≡ₚ Samples.agent <$> blocked_pool).
  { change (["Devin"; "Cursor"; "Devin"; "Cursor"]
            ≡ₚ ["Cursor"; "Cursor"; "Devin"; "Devin"]).
    etrans; [apply perm_swap|]. apply perm_skip.
    exact (Permutation_app_comm ["Devin"; "Devin"] ["Cursor"]). }
  assert (Hres : Samples.stratified_n_sample (H := Lcg.generator) 0
                   striped_pool 2 Samples.agent
                 = Ok ([row 2 "Cursor" true; row 3 "Devin" true],
                       [row 1 "Devin" true; row 4 "Cursor" true]))
    by (vm_compute; reflexivity).
  assert (Hres' : Samples.stratified_n_sample (H := Lcg.generator) 5
                    blocked_pool 2 Samples.agent
                  = Ok ([row 5 "Cursor" false; row 8 "Devin" false],
                        [row 7 "Devin" false; row 6 "Cursor" false]))
    by (vm_compute; reflexivity).
  split; [exact Hp|]. split; [exact Hres|]. split; [exact Hres'|].
  exact (sample_counts_depend_on_stratum_sizes (H := Lcg.generator) 0 5
           striped_pool blocked_pool 2 Samples.agent Samples.agent
           _ _ _ _ "Devin" Hp Hres Hres').
Defined.
